(** * Block generation of the mining worker

    A shallow embedding of [internal/pkg/mining/block_generate.go]:
    [divideMessages], [aggregateBLS] and [DefaultWorker.Generate], followed by
    the properties of the block-generation pipeline that are checked against
    it.

    Conventions of the embedding:
    - a Go slice is a [slice]: either the nil slice or a list of elements;
      where only [range] reads it, the list of its elements is used;
    - a [uint64] is a [Z] in the range [0, 2^64); additions wrap ([add64]);
    - a pointer to a struct is the struct (pointers are assumed non-nil);
    - the collaborators of the worker (chain store, power table, processor,
      message store, signer, clock) are fields of [DefaultWorker]; the
      message pool is an explicit state, and every call to a collaborator is
      recorded, in order, in a trace of [Event]s;
    - [log.*] output and the deferred timer are not modelled; the arguments
      of the two logging calls in the failure loops are still evaluated,
      because an index out of range panics there;
    - names are those of the source, but for [From_] (the field [From] of a
      message) and [BlockHeight] (the field [Height] of a block, [Height]
      being the method of a tip set). *)

From Stdlib Require Import String Strings.Byte.
From Stdlib Require Import List ZArith Lia Bool Permutation.
Import ListNotations.

Local Open Scope Z_scope.

(** ** Go slices *)

Module Slice.

Inductive slice (A : Type) : Type :=
| nil_slice : slice A
| mk_slice (l : list A) : slice A.
Arguments nil_slice {A}.
Arguments mk_slice {A} l.

(** What [range] iterates over. *)
Definition elems {A} (s : slice A) : list A :=
  match s with
  | nil_slice => []
  | mk_slice l => l
  end.

Definition len {A} (s : slice A) : nat := length (elems s).

Definition is_nil {A} (s : slice A) : bool :=
  match s with
  | nil_slice => true
  | mk_slice _ => false
  end.

(** [append(s, x)]: the result of appending one element is never nil. *)
Definition append {A} (s : slice A) (x : A) : slice A :=
  mk_slice (elems s ++ [x]).

(** [copy(dst, src)] on byte arrays: overwrites the first
    [min(len(dst), len(src))] cells of [dst], leaves the rest. *)
Fixpoint copy {A} (dst src : list A) : list A :=
  match dst, src with
  | _ :: dst', s :: src' => s :: copy dst' src'
  | _, _ => dst
  end.

End Slice.
Import Slice.

(** ** Unsigned 64-bit arithmetic *)

Definition two64 : Z := 2 ^ 64.

Definition add64 (a b : Z) : Z := (a + b) mod two64.

(** A conversion to [uint64] (for instance of the [int64] of [Unix()]). *)
Definition to_uint64 (a : Z) : Z := a mod two64.

(** ** Errors *)

Definition Error : Type := string.

(** [errors.Wrap(err, msg)]. *)
Definition Wrap (err : Error) (msg : string) : Error :=
  (msg ++ ": " ++ err)%string.

Definition wrap {A} (msg : string) (r : Error + A) : Error + A :=
  match r with
  | inl err => inl (Wrap err msg)
  | inr a => inr a
  end.

(** ** Types and operations of the packages the file imports

    [address], [types], [block], [vm], [cid] and the state tree and power
    table are used by the file only through the operations listed here. *)

Class Externals : Type := {
  (* package address *)
  Address : Type;
  Protocol : Address -> Z;
  BLS : Z;
  AddressString : Address -> string;
  (* package types *)
  UnsignedMessage : Type;
  From_ : UnsignedMessage -> Address;
  MessageReceipt : Type;
  TxMeta : Type;
  Cid : Type;
  (* package block *)
  TipSet : Type;
  TipSetKey : Type;
  Key : TipSet -> TipSetKey;
  Height : TipSet -> Error + Z;
  Ticket : Type;
  VRFPi : Type;
  (* state tree, power table, vm storage map *)
  StateTree : Type;
  StateTree_Flush : StateTree -> Error + Cid;
  PowerTable : Type;
  HasPower : PowerTable -> Address -> bool;
  Blockstore : Type;
  StorageMap : Type;
  NewStorageMap : Blockstore -> StorageMap;
  StorageMap_Flush : StorageMap -> Error + unit;
  (* the message pool behind [MessageSource] *)
  Pool : Type
}.

(** The [bls] package (go-bls-sigs): the size of a signature and the
    aggregation primitive, which returns nil when it cannot aggregate. *)
Class BlsLib : Type := {
  SignatureBytes : nat;
  Aggregate : list (list byte) -> option (list byte)
}.

Section Messages.
Context {X : Externals}.

Record SignedMessage : Type := {
  Message : UnsignedMessage;
  Signature : list byte
}.

Definition isBLS (m : SignedMessage) : bool :=
  Protocol (From_ (Message m)) =? BLS.

Definition notBLS (m : SignedMessage) : bool := negb (isBLS m).

(** The loop of [divideMessages], one iteration. *)
Definition divideStep (acc : list SignedMessage * list SignedMessage)
    (m : SignedMessage) : list SignedMessage * list SignedMessage :=
  let '(secpMessages, blsMessages) := acc in
  if Protocol (From_ (Message m)) =? BLS
  then (secpMessages, blsMessages ++ [m])
  else (secpMessages ++ [m], blsMessages).

(** Returns [(secpMessages, blsMessages)]. *)
Definition divideMessages (messages : list SignedMessage)
  : list SignedMessage * list SignedMessage :=
  fold_left divideStep messages ([], []).

Context {B : BlsLib}.

(** [blsSig := bls.Signature{}; copy(blsSig[:], sig)]. *)
Definition toBlsSignature (sig : list byte) : list byte :=
  copy (repeat x00 SignatureBytes) sig.

Definition aggregateStep (acc : list (list byte) * list UnsignedMessage)
    (msg : SignedMessage) : list (list byte) * list UnsignedMessage :=
  let '(sigs, unwrappedMsgs) := acc in
  let unwrappedMsgs := unwrappedMsgs ++ [Message msg] in
  let sig := Signature msg in
  let blsSig := toBlsSignature sig in
  (sigs ++ [blsSig], unwrappedMsgs).

Definition aggregateBLS (blsMessages : list SignedMessage)
  : Error + (list UnsignedMessage * list byte) :=
  let '(sigs, unwrappedMsgs) := fold_left aggregateStep blsMessages ([], []) in
  match Aggregate sigs with
  | None => inl "could not aggregate signatures"%string
  | Some blsAggregateSig => inr (unwrappedMsgs, blsAggregateSig)
  end.

End Messages.

(** How a call ends: with a value, with a returned error, or in a panic. *)
Inductive outcome (A : Type) : Type :=
| Ok (a : A)
| Failed (err : Error)
| Panic (msg : string).
Arguments Ok {A} a.
Arguments Failed {A} err.
Arguments Panic {A} msg.

(** ** Structures of the processor's response and of the block *)

Section Structures.
Context {X : Externals}.

Record ApplicationResult : Type := {
  Receipt : MessageReceipt;
  ExecutionError : option Error
}.

Record ApplyMessagesResponse : Type := {
  Results : slice ApplicationResult;
  SuccessfulMessages : slice SignedMessage;
  PermanentFailures : slice SignedMessage;
  PermanentErrors : slice Error;
  TemporaryFailures : slice SignedMessage;
  TemporaryErrors : slice Error
}.

Record Block : Type := {
  Miner : Address;
  BlockHeight : Z;
  Messages : TxMeta;
  MessageReceipts : Cid;
  Parents : TipSetKey;
  ParentWeight : Z;
  ElectionProof : VRFPi;
  StateRoot : Cid;
  Tickets : list Ticket;
  Timestamp : Z;
  BLSAggregateSig : list byte;
  BlockSig : list byte
}.

(** [next.BlockSig = sig]. *)
Definition set_BlockSig (b : Block) (sig : list byte) : Block :=
  {| Miner := Miner b; BlockHeight := BlockHeight b; Messages := Messages b;
     MessageReceipts := MessageReceipts b; Parents := Parents b;
     ParentWeight := ParentWeight b; ElectionProof := ElectionProof b;
     StateRoot := StateRoot b; Tickets := Tickets b;
     Timestamp := Timestamp b; BLSAggregateSig := BLSAggregateSig b;
     BlockSig := sig |}.

(** The fields of [DefaultWorker] that [Generate] uses. The processor
    mutates the state tree and the storage map it is given: it returns
    them with its response. *)
Record DefaultWorker : Type := {
  minerAddr : Address;
  minerOwnerAddr : Address;
  blockstore : Blockstore;
  getStateTree : TipSet -> Error + StateTree;
  getPowerTable : TipSetKey -> Error + PowerTable;
  getWeight : TipSet -> Error + Z;
  getAncestors : TipSet -> Z -> Error + list TipSet;
  messageSource_Pending : Pool -> slice SignedMessage;
  messageSource_Remove : Cid -> Pool -> Pool;
  processor_ApplyMessagesAndPayRewards :
    StateTree -> StorageMap -> list SignedMessage -> Address -> Z ->
    list TipSet -> Error + (ApplyMessagesResponse * StateTree * StorageMap);
  messageStore_StoreMessages :
    list SignedMessage -> list UnsignedMessage -> Error + TxMeta;
  messageStore_StoreReceipts : slice MessageReceipt -> Error + Cid;
  api_MinerGetWorkerAddress : Address -> TipSetKey -> Error + Address;
  workerSigner_SignBytes : list byte -> Address -> Error + list byte;
  clock_Now_Unix : Z
}.

(** Methods of this package and of [types] and [block] that live in other
    files: the message queue ([NewMessageQueue(pending).Drain()]), the
    content identifier of a message and the signable bytes of a block. *)
Class Methods : Type := {
  MessageQueue_Drain : slice SignedMessage -> list SignedMessage;
  SignedMessage_Cid : SignedMessage -> Error + Cid;
  Block_SignatureData : Block -> list byte
}.

(** One entry of the trace per call to a collaborator. *)
Inductive Event : Type :=
| EvGetStateTree
| EvGetPowerTable
| EvHasPower
| EvGetWeight
| EvHeight
| EvGetAncestors (height : Z)
| EvPending
| EvApplyMessages (messages : list SignedMessage) (height : Z)
| EvFlushStateTree
| EvFlushStorageMap
| EvStoreMessages (secp : list SignedMessage) (bls : list UnsignedMessage)
| EvStoreReceipts (receipts : slice MessageReceipt)
| EvNow
| EvMinerGetWorkerAddress
| EvSignBytes (data : list byte)
| EvCid (msg : SignedMessage)
| EvRemove (mc : Cid).

(** ** The monad of [Generate]: pool state, trace, error, panic *)

Definition M (A : Type) : Type := Pool -> outcome A * Pool * list Event.

Definition ret {A} (a : A) : M A := fun p => (Ok a, p, []).

Definition bind {A B} (m : M A) (f : A -> M B) : M B :=
  fun p =>
    match m p with
    | (Ok a, p', t) =>
        let '(r, p'', t') := f a p' in (r, p'', t ++ t')
    | (Failed err, p', t) => (Failed err, p', t)
    | (Panic msg, p', t) => (Panic msg, p', t)
    end.

Definition fail {A} (err : Error) : M A := fun p => (Failed err, p, []).

Definition panic {A} (msg : string) : M A := fun p => (Panic msg, p, []).

(** A call to a collaborator that does not touch the pool. *)
Definition call {A} (ev : Event) (r : Error + A) : M A :=
  fun p =>
    (match r with inl err => Failed err | inr a => Ok a end, p, [ev]).

Definition emit (ev : Event) : M unit := fun p => (Ok tt, p, [ev]).

Definition Pending (w : DefaultWorker) : M (slice SignedMessage) :=
  fun p => (Ok (messageSource_Pending w p), p, [EvPending]).

Definition Remove (w : DefaultWorker) (mc : Cid) : M unit :=
  fun p => (Ok tt, messageSource_Remove w mc p, [EvRemove mc]).

(** [s[i]]. *)
Definition index {A} (s : slice A) (i : nat) : M A :=
  match nth_error (elems s) i with
  | Some a => ret a
  | None => panic "index out of range"%string
  end.

End Structures.

Declare Scope gen_scope.
Delimit Scope gen_scope with gen.
Notation "x <- m ;; k" := (bind m (fun x => k))
  (at level 100, m at next level, right associativity) : gen_scope.
Notation "' pat <- m ;; k" := (bind m (fun x => match x with pat => k end))
  (at level 100, pat pattern, m at next level, right associativity) : gen_scope.
Notation "m ;; k" := (bind m (fun _ => k))
  (at level 100, right associativity) : gen_scope.

(** ** [Generate] *)

Section Generation.
Context {X : Externals} {B : BlsLib} {Mt : Methods}.
Local Open Scope gen_scope.

(** A fallible computation of this file (no collaborator is called). *)
Definition lift {A} (r : Error + A) : M A :=
  fun p => (match r with inl err => Failed err | inr a => Ok a end, p, []).

(** [blockHeight := baseHeight + nullBlockCount + 1] on [uint64]. *)
Definition newBlockHeight (baseHeight nullBlockCount : Z) : Z :=
  add64 (add64 baseHeight nullBlockCount) 1.

(** [receipts := []*types.MessageReceipt{}] and the loop over
    [res.Results]. *)
Definition collectReceipts (results : slice ApplicationResult)
  : slice MessageReceipt :=
  fold_left (fun receipts r => append receipts (Receipt r))
            (elems results) (mk_slice []).

(** The loop over [res.PermanentFailures], from index [i] on. *)
Fixpoint removePermanentFailures (w : DefaultWorker)
    (res : ApplyMessagesResponse) (i : nat) (msgs : list SignedMessage)
  : M unit :=
  match msgs with
  | [] => ret tt
  | msg :: rest =>
      _ <- index (PermanentErrors res) i ;;
      emit (EvCid msg) ;;
      match SignedMessage_Cid msg with
      | inr mc => Remove w mc
      | inl _ => ret tt
      end ;;
      removePermanentFailures w res (S i) rest
  end.

(** The loop over [res.TemporaryFailures], from index [i] on. *)
Fixpoint logTemporaryFailures (res : ApplyMessagesResponse) (i : nat)
    (msgs : list SignedMessage) : M unit :=
  match msgs with
  | [] => ret tt
  | _ :: rest =>
      _ <- index (TemporaryErrors res) i ;;
      logTemporaryFailures res (S i) rest
  end.

Definition Generate (w : DefaultWorker) (baseTipSet : TipSet)
    (tickets : list Ticket) (electionProof : VRFPi) (nullBlockCount : Z)
  : M Block :=
  stateTree <- call EvGetStateTree
    (wrap "get state tree" (getStateTree w baseTipSet)) ;;
  powerTable <- call EvGetPowerTable
    (wrap "get power table" (getPowerTable w (Key baseTipSet))) ;;
  emit EvHasPower ;;
  if negb (HasPower powerTable (minerAddr w)) then
    fail ("bad miner address, miner must store files before mining: "
          ++ AddressString (minerAddr w))%string
  else
  weight <- call EvGetWeight (wrap "get weight" (getWeight w baseTipSet)) ;;
  baseHeight <- call EvHeight
    (wrap "get base tip set height" (Height baseTipSet)) ;;
  let blockHeight := newBlockHeight baseHeight nullBlockCount in
  ancestors <- call (EvGetAncestors blockHeight)
    (wrap "get base tip set ancestors"
          (getAncestors w baseTipSet blockHeight)) ;;
  pending <- Pending w ;;
  let '(secpMessages, blsMessages) :=
    divideMessages (MessageQueue_Drain pending) in
  (* bls messages are processed first *)
  let messages := blsMessages ++ secpMessages in
  let vms := NewStorageMap (blockstore w) in
  '(res, stateTree, vms) <- call (EvApplyMessages messages blockHeight)
    (wrap "generate apply messages"
          (processor_ApplyMessagesAndPayRewards w stateTree vms messages
             (minerOwnerAddr w) blockHeight ancestors)) ;;
  newStateTreeCid <- call EvFlushStateTree
    (wrap "generate flush state tree" (StateTree_Flush stateTree)) ;;
  call EvFlushStorageMap
    (wrap "generate flush vm storage map" (StorageMap_Flush vms)) ;;
  let receipts := collectReceipts (Results res) in
  (* split mined messages into secp and bls *)
  let '(minedSecpMessages, minedBLSMessages) :=
    divideMessages (elems (SuccessfulMessages res)) in
  '(unwrappedBLSMessages, blsAggregateSig) <- lift
    (wrap "could not aggregate bls messages"
          (aggregateBLS minedBLSMessages)) ;;
  txMeta <- call (EvStoreMessages minedSecpMessages unwrappedBLSMessages)
    (wrap "error persisting messages"
          (messageStore_StoreMessages w minedSecpMessages
             unwrappedBLSMessages)) ;;
  rcptsCid <- call (EvStoreReceipts receipts)
    (wrap "error persisting receipts"
          (messageStore_StoreReceipts w receipts)) ;;
  emit EvNow ;;
  let next :=
    {| Miner := minerAddr w;
       BlockHeight := blockHeight;
       Messages := txMeta;
       MessageReceipts := rcptsCid;
       Parents := Key baseTipSet;
       ParentWeight := weight;
       ElectionProof := electionProof;
       StateRoot := newStateTreeCid;
       Tickets := tickets;
       Timestamp := to_uint64 (clock_Now_Unix w);
       BLSAggregateSig := blsAggregateSig;
       BlockSig := [] |} in
  workerAddr <- call EvMinerGetWorkerAddress
    (wrap "failed to read workerAddr during block generation"
          (api_MinerGetWorkerAddress w (minerAddr w) (Key baseTipSet))) ;;
  sig <- call (EvSignBytes (Block_SignatureData next))
    (wrap "failed to sign block"
          (workerSigner_SignBytes w (Block_SignatureData next)
             workerAddr)) ;;
  let next := set_BlockSig next sig in
  removePermanentFailures w res 0 (elems (PermanentFailures res)) ;;
  logTemporaryFailures res 0 (elems (TemporaryFailures res)) ;;
  ret next.

End Generation.

(** ** Vocabulary of the properties *)

(** [Interleave l r m]: [m] is a merge of [l] and [r]; every element of [m]
    comes from exactly one of the two, and both keep their order. *)
Inductive Interleave {A : Type} : list A -> list A -> list A -> Prop :=
| Interleave_nil : Interleave [] [] []
| Interleave_left x l r m :
    Interleave l r m -> Interleave (x :: l) r (x :: m)
| Interleave_right x l r m :
    Interleave l r m -> Interleave l (x :: r) (x :: m).

(** [Subseq s l]: [s] is [l] with some elements dropped, order kept. *)
Inductive Subseq {A : Type} : list A -> list A -> Prop :=
| Subseq_nil : Subseq [] []
| Subseq_keep x s l : Subseq s l -> Subseq (x :: s) (x :: l)
| Subseq_drop x s l : Subseq s l -> Subseq s (x :: l).

Section EventKinds.
Context {X : Externals}.

Definition is_Remove (ev : Event) : bool :=
  match ev with EvRemove _ => true | _ => false end.

Definition is_SignBytes (ev : Event) : bool :=
  match ev with EvSignBytes _ => true | _ => false end.

(** The calls that read or change the pool, run the messages, or write to
    a store. *)
Definition is_pool_or_store (ev : Event) : bool :=
  match ev with
  | EvPending | EvApplyMessages _ _ | EvFlushStateTree | EvFlushStorageMap
  | EvStoreMessages _ _ | EvStoreReceipts _ | EvRemove _ => true
  | _ => false
  end.

(** The property of an application order: a BLS message at position [i]
    and a message of another protocol at position [j] have [i < j]. *)
Definition BLSFirst (messages : list SignedMessage) : Prop :=
  forall i j mi mj,
    nth_error messages i = Some mi -> nth_error messages j = Some mj ->
    isBLS mi = true -> isBLS mj = false -> (i < j)%nat.

(** [msg.Signature] replaced by the fixed-size value [aggregateBLS]
    makes of it. *)
Definition withFixedSignature {B : BlsLib} (msg : SignedMessage)
  : SignedMessage :=
  {| Message := Message msg;
     Signature := toBlsSignature (Signature msg) |}.

End EventKinds.

Section Runs.
Context {X : Externals}.

(** A run that comes after the events [t]. *)
Definition prepend {A} (t : list Event)
    (run : outcome A * Pool * list Event) : outcome A * Pool * list Event :=
  let '(o, p, t') := run in (o, p, t ++ t').

(** The events of the loop over the permanent failures. *)
Definition is_reconcile (ev : Event) : bool :=
  match ev with EvCid _ | EvRemove _ => true | _ => false end.

(** The events up to and including the application of the messages. *)
Definition eventsToApply (messages : list SignedMessage) (height : Z)
  : list Event :=
  [EvGetStateTree; EvGetPowerTable; EvHasPower; EvGetWeight; EvHeight;
   EvGetAncestors height; EvPending; EvApplyMessages messages height].

End Runs.

(** The three components of a run of [Generate]. *)
Definition outcome_of {O P T : Type} (run : O * P * T) : O := fst (fst run).
Definition pool_of {O P T : Type} (run : O * P * T) : P := snd (fst run).
Definition trace_of {O P T : Type} (run : O * P * T) : T := snd run.

(** ** The aggregation primitive of the [bls] package *)

(** A signature scheme as the primitive sees it: signatures are encodings
    of the elements of a group. *)
Record BlsGroup : Type := {
  G2 : Type;
  G2_zero : G2;
  G2_add : G2 -> G2 -> G2;
  G2_decode : list byte -> option G2;
  G2_encode : G2 -> list byte
}.

Fixpoint decodeAll (grp : BlsGroup) (sigs : list (list byte))
  : option (list (G2 grp)) :=
  match sigs with
  | [] => Some []
  | s :: rest =>
      match G2_decode grp s, decodeAll grp rest with
      | Some g, Some gs => Some (g :: gs)
      | _, _ => None
      end
  end.

(** Modelled from the spec: [bls.Aggregate], of the go-bls-sigs library,
    which the source calls and does not contain. The spec (4.5) has the
    primitive report failure on an empty or malformed signature set: with
    no signature, or with a signature that does not decode, the primitive
    fails (it returns nil); otherwise the decoded elements are summed. *)
Definition spec_Aggregate (grp : BlsGroup) (sigs : list (list byte))
  : option (list byte) :=
  match sigs with
  | [] => None
  | _ :: _ =>
      match decodeAll grp sigs with
      | None => None
      | Some gs =>
          Some (G2_encode grp (fold_left (G2_add grp) gs (G2_zero grp)))
      end
  end.

(** The [bls] package with that primitive; signatures have 96 bytes. *)
Definition SpecBls (grp : BlsGroup) : BlsLib :=
  {| SignatureBytes := 96; Aggregate := spec_Aggregate grp |}.

(** ** A small instance, to run the definitions

    Addresses are their protocol tag, an unsigned message is its sender and
    its nonce, the content identifier of a message is its nonce, a tip set
    is its height, and a state tree or storage map flushes when it is
    [true]. The processor applies the messages of even nonce and fails the
    others for good. *)

Module Toy.

Definition externals : Externals :=
  {| Address := Z;
     Protocol := fun a => a;
     BLS := 3;
     AddressString := fun _ => "t1"%string;
     UnsignedMessage := Z * nat;
     From_ := fst;
     MessageReceipt := nat;
     TxMeta := nat * nat;
     Cid := nat;
     TipSet := Z;
     TipSetKey := Z;
     Key := fun ts => ts;
     Height := fun ts => inr ts;
     Ticket := unit;
     VRFPi := unit;
     StateTree := bool;
     StateTree_Flush := fun st =>
       if st then inr 7%nat else inl "store closed"%string;
     PowerTable := bool;
     HasPower := fun pt _ => pt;
     Blockstore := unit;
     StorageMap := bool;
     NewStorageMap := fun _ => true;
     StorageMap_Flush := fun vms =>
       if vms then inr tt else inl "store closed"%string;
     Pool := list (Z * nat) |}.

#[local] Existing Instance externals.

Definition group : BlsGroup :=
  {| G2 := nat;
     G2_zero := 0%nat;
     G2_add := Nat.add;
     G2_decode := fun s =>
       if (length s =? 96)%nat then Some (length (filter (Byte.eqb x01) s))
       else None;
     G2_encode := fun g => repeat x01 g ++ repeat x00 (96 - g) |}.

#[local] Instance bls : BlsLib := SpecBls group.

Definition signed (m : Z * nat) : SignedMessage :=
  {| Message := m; Signature := [x01] |}.

Definition applied (msg : SignedMessage) : bool :=
  Nat.even (snd (Message msg)).

Definition response (messages : list SignedMessage)
  : ApplyMessagesResponse :=
  let ok := filter applied messages in
  let bad := filter (fun m => negb (applied m)) messages in
  {| Results := mk_slice
       (map (fun m => {| Receipt := snd (Message m);
                         ExecutionError := None |}) ok);
     SuccessfulMessages := mk_slice ok;
     PermanentFailures := mk_slice bad;
     PermanentErrors := mk_slice (map (fun _ => "bad nonce"%string) bad);
     TemporaryFailures := nil_slice;
     TemporaryErrors := nil_slice |}.

#[local] Instance methods : Methods :=
  {| MessageQueue_Drain := elems;
     SignedMessage_Cid := fun m => inr (snd (Message m));
     Block_SignatureData := fun b => [x00] |}.

(** A worker whose power table says [power] and whose state tree is
    [tree]. *)
Definition worker (power tree : bool) : DefaultWorker :=
  {| minerAddr := 1;
     minerOwnerAddr := 1;
     blockstore := tt;
     getStateTree := fun _ => inr tree;
     getPowerTable := fun _ => inr power;
     getWeight := fun _ => inr 100;
     getAncestors := fun ts _ => inr [ts];
     messageSource_Pending := fun p => mk_slice (map signed p);
     messageSource_Remove := fun mc p =>
       filter (fun m => negb (Nat.eqb (snd m) mc)) p;
     processor_ApplyMessagesAndPayRewards :=
       fun st vms messages _ _ _ => inr (response messages, st, vms);
     messageStore_StoreMessages := fun secp blsm =>
       inr (length secp, length blsm);
     messageStore_StoreReceipts := fun rs => inr (len rs);
     api_MinerGetWorkerAddress := fun _ _ => inr 1;
     workerSigner_SignBytes := fun data _ => inr data;
     clock_Now_Unix := 1572000000 |}.

(** A pool: two BLS senders (nonces 0 and 4) and two others (nonce 2,
    and nonce 1, which the processor fails). *)
Definition pool : list (Z * nat) :=
  [(1, 2%nat); (3, 0%nat); (1, 1%nat); (3, 4%nat)].

(** The messages of [pool] in the order the processor gets them. *)
Definition applied_order : list SignedMessage :=
  [signed (3, 0%nat); signed (3, 4%nat); signed (1, 2%nat);
   signed (1, 1%nat)].

Definition run (power tree : bool) (base : Z) (nullBlockCount : Z)
  : outcome Block * list (Z * nat) * list Event :=
  Generate (worker power tree) base [] tt nullBlockCount pool.

End Toy.

(** ** Vocabulary of the properties of the failure loops and of the errors *)

Section Reconciliation.
Context {X : Externals} {B : BlsLib} {Mt : Methods}.

(** The pool once the messages of [msgs] whose content identifier can be
    computed have been removed from it, in their order. *)
Definition reconcile (w : DefaultWorker) (msgs : list SignedMessage)
    (p : Pool) : Pool :=
  fold_left
    (fun p msg =>
       match SignedMessage_Cid msg with
       | inr mc => messageSource_Remove w mc p
       | inl _ => p
       end)
    msgs p.

(** The calls of the loop over [msgs]: [Cid] for each message, followed by
    [Remove] when [Cid] returned no error. *)
Definition reconcileEvents (msgs : list SignedMessage) : list Event :=
  flat_map
    (fun msg =>
       EvCid msg ::
       match SignedMessage_Cid msg with
       | inr mc => [EvRemove mc]
       | inl _ => []
       end)
    msgs.

(** The calls between the application of the messages and the loops. *)
Definition eventsToSign (secp : list SignedMessage)
    (bls : list UnsignedMessage) (receipts : slice MessageReceipt)
    (data : list byte) : list Event :=
  [EvFlushStateTree; EvFlushStorageMap; EvStoreMessages secp bls;
   EvStoreReceipts receipts; EvNow; EvMinerGetWorkerAddress;
   EvSignBytes data].

(** The messages given to [errors.Wrap] in [Generate]. *)
Definition stageMessages : list string :=
  ["get state tree"; "get power table"; "get weight";
   "get base tip set height"; "get base tip set ancestors";
   "generate apply messages"; "generate flush state tree";
   "generate flush vm storage map"; "could not aggregate bls messages";
   "error persisting messages"; "error persisting receipts";
   "failed to read workerAddr during block generation";
   "failed to sign block"]%string.

(** The error of [Generate] for a miner without power. *)
Definition noPowerError (w : DefaultWorker) : Error :=
  ("bad miner address, miner must store files before mining: "
   ++ AddressString (minerAddr w))%string.

(** [msg] with [k] zero bytes after its signature. *)
Definition withTrailingZeros (k : nat) (msg : SignedMessage)
  : SignedMessage :=
  {| Message := Message msg; Signature := Signature msg ++ repeat x00 k |}.

End Reconciliation.

(** ** Vocabulary of the calls of [Generate] *)

Section Calls.
Context {X : Externals} {Mt : Methods}.
Variables (w : DefaultWorker) (baseTipSet : TipSet) (nullBlockCount : Z)
          (pool : Pool).

(** The calls before the pending messages are read have succeeded, with
    these answers: the state tree of the parent, a power table in which
    the miner has power, the weight and the height of the parent, and the
    ancestors at the height of the new block. *)
Definition Prepared (stateTree : StateTree) (weight baseHeight : Z)
    (ancestors : list TipSet) : Prop :=
  getStateTree w baseTipSet = inr stateTree
  /\ (exists powerTable,
        getPowerTable w (Key baseTipSet) = inr powerTable
        /\ HasPower powerTable (minerAddr w) = true)
  /\ getWeight w baseTipSet = inr weight
  /\ Height baseTipSet = inr baseHeight
  /\ getAncestors w baseTipSet (newBlockHeight baseHeight nullBlockCount)
     = inr ancestors.

(** The processor, called on the state tree of the parent, a new storage
    map, the BLS messages of the drained queue followed by its other
    messages, the owner of the miner, the height of the new block and the
    ancestors, has answered [res], with the tree and the map as it left
    them. *)
Definition Applied (res : ApplyMessagesResponse) (stateTree' : StateTree)
    (vms' : StorageMap) : Prop :=
  exists stateTree weight baseHeight ancestors,
    Prepared stateTree weight baseHeight ancestors
    /\ let drained := MessageQueue_Drain (messageSource_Pending w pool) in
       processor_ApplyMessagesAndPayRewards w stateTree
         (NewStorageMap (blockstore w))
         (snd (divideMessages drained) ++ fst (divideMessages drained))
         (minerOwnerAddr w) (newBlockHeight baseHeight nullBlockCount)
         ancestors
       = inr (res, stateTree', vms').

(** The answer of the processor on [messages] at [height] (with this state
    tree and these ancestors) decides the run that ends with [o]: its
    error is the error of the run; and the tree it leaves is the one that
    is flushed, so that an error of that flush is the error of the run and
    the state root of a block that is returned is what that flush
    returned. *)
Definition DecidedByProcessor (o : outcome Block) (stateTree : StateTree)
    (messages : list SignedMessage) (height : Z) (ancestors : list TipSet)
  : Prop :=
  (forall err,
     processor_ApplyMessagesAndPayRewards w stateTree
       (NewStorageMap (blockstore w)) messages (minerOwnerAddr w) height
       ancestors = inl err ->
     o = Failed (Wrap err "generate apply messages"))
  /\ (forall res stateTree' vms',
        processor_ApplyMessagesAndPayRewards w stateTree
          (NewStorageMap (blockstore w)) messages (minerOwnerAddr w) height
          ancestors = inr (res, stateTree', vms') ->
        (forall err,
           StateTree_Flush stateTree' = inl err ->
           o = Failed (Wrap err "generate flush state tree"))
        /\ (forall blk,
              o = Ok blk -> StateTree_Flush stateTree' = inr (StateRoot blk))).

End Calls.

(** A response of the processor to run the loops on: two permanent
    failures, with as many errors as [errors] says. *)
Module ToyLoops.

#[local] Existing Instance Toy.externals.
#[local] Existing Instance Toy.bls.
#[local] Existing Instance Toy.methods.

Definition failures : list SignedMessage :=
  [Toy.signed (1, 1%nat); Toy.signed (3, 5%nat)].

Definition response (errors : list Error) : ApplyMessagesResponse :=
  {| Results := nil_slice;
     SuccessfulMessages := mk_slice [Toy.signed (3, 0%nat)];
     PermanentFailures := mk_slice failures;
     PermanentErrors := mk_slice errors;
     TemporaryFailures := nil_slice;
     TemporaryErrors := nil_slice |}.

(** A worker whose processor answers [response errors]. *)
Definition worker (errors : list Error) : DefaultWorker :=
  {| minerAddr := 1;
     minerOwnerAddr := 1;
     blockstore := tt;
     getStateTree := fun _ => inr true;
     getPowerTable := fun _ => inr true;
     getWeight := fun _ => inr 100;
     getAncestors := fun ts _ => inr [ts];
     messageSource_Pending := fun p => mk_slice (map Toy.signed p);
     messageSource_Remove := fun mc p =>
       filter (fun m => negb (Nat.eqb (snd m) mc)) p;
     processor_ApplyMessagesAndPayRewards :=
       fun st vms _ _ _ _ => inr (response errors, st, vms);
     messageStore_StoreMessages := fun secp blsm =>
       inr (length secp, length blsm);
     messageStore_StoreReceipts := fun rs => inr (len rs);
     api_MinerGetWorkerAddress := fun _ _ => inr 1;
     workerSigner_SignBytes := fun data _ => inr data;
     clock_Now_Unix := 1572000000 |}.

(** [Toy.worker true true] with a signer that has no key. *)
Definition keyless : DefaultWorker :=
  {| minerAddr := 1;
     minerOwnerAddr := 1;
     blockstore := tt;
     getStateTree := fun _ => inr true;
     getPowerTable := fun _ => inr true;
     getWeight := fun _ => inr 100;
     getAncestors := fun ts _ => inr [ts];
     messageSource_Pending := fun p => mk_slice (map Toy.signed p);
     messageSource_Remove := fun mc p =>
       filter (fun m => negb (Nat.eqb (snd m) mc)) p;
     processor_ApplyMessagesAndPayRewards :=
       fun st vms messages _ _ _ => inr (Toy.response messages, st, vms);
     messageStore_StoreMessages := fun secp blsm =>
       inr (length secp, length blsm);
     messageStore_StoreReceipts := fun rs => inr (len rs);
     api_MinerGetWorkerAddress := fun _ _ => inr 1;
     workerSigner_SignBytes := fun _ _ => inl "no key"%string;
     clock_Now_Unix := 1572000000 |}.

(** A response with an error for each permanent failure and none for its
    temporary failure. *)
Definition unlogged_response : ApplyMessagesResponse :=
  {| Results := nil_slice;
     SuccessfulMessages := mk_slice [Toy.signed (3, 0%nat)];
     PermanentFailures := mk_slice failures;
     PermanentErrors := mk_slice ["bad nonce"; "bad nonce"]%string;
     TemporaryFailures := mk_slice [Toy.signed (1, 2%nat)];
     TemporaryErrors := nil_slice |}.

(** A worker whose processor answers [unlogged_response]. *)
Definition unlogged : DefaultWorker :=
  {| minerAddr := 1;
     minerOwnerAddr := 1;
     blockstore := tt;
     getStateTree := fun _ => inr true;
     getPowerTable := fun _ => inr true;
     getWeight := fun _ => inr 100;
     getAncestors := fun ts _ => inr [ts];
     messageSource_Pending := fun p => mk_slice (map Toy.signed p);
     messageSource_Remove := fun mc p =>
       filter (fun m => negb (Nat.eqb (snd m) mc)) p;
     processor_ApplyMessagesAndPayRewards :=
       fun st vms _ _ _ _ => inr (unlogged_response, st, vms);
     messageStore_StoreMessages := fun secp blsm =>
       inr (length secp, length blsm);
     messageStore_StoreReceipts := fun rs => inr (len rs);
     api_MinerGetWorkerAddress := fun _ _ => inr 1;
     workerSigner_SignBytes := fun data _ => inr data;
     clock_Now_Unix := 1572000000 |}.

Definition pool : list (Z * nat) := [(1, 1%nat); (3, 5%nat); (1, 2%nat)].

Definition run (errors : list Error)
  : outcome Block * list (Z * nat) * list Event :=
  Generate (worker errors) 10 [] tt 0 pool.

End ToyLoops.

(** * Properties *)

(** ** Lists, interleavings and subsequences *)

Section ListFacts.
Context {A : Type}.

Lemma Interleave_left_sub (l r m : list A) :
  Interleave l r m -> Subseq l m.
Proof. induction 1; constructor; assumption. Qed.

Lemma Interleave_right_sub (l r m : list A) :
  Interleave l r m -> Subseq r m.
Proof. induction 1; constructor; assumption. Qed.

Lemma Interleave_length (l r m : list A) :
  Interleave l r m -> (length l + length r = length m)%nat.
Proof. induction 1; simpl; lia. Qed.

Lemma Interleave_perm (l r m : list A) :
  Interleave l r m -> Permutation (l ++ r) m.
Proof.
  induction 1; simpl.
  - constructor.
  - now constructor.
  - apply Permutation_sym, Permutation_cons_app, Permutation_sym.
    assumption.
Qed.

Lemma Interleave_filter (f : A -> bool) (m : list A) :
  Interleave (filter (fun x => negb (f x)) m) (filter f m) m.
Proof.
  induction m as [|x m IH]; simpl.
  - constructor.
  - destruct (f x); simpl; constructor; assumption.
Qed.

Lemma copy_length (dst src : list A) :
  length (copy dst src) = length dst.
Proof.
  revert src; induction dst as [|d dst IH]; intros [|s src]; simpl; auto.
Qed.

Lemma copy_firstn_skipn (dst src : list A) :
  copy dst src = firstn (length dst) src ++ skipn (length src) dst.
Proof.
  revert src; induction dst as [|d dst IH]; intros [|s src]; simpl;
    try reflexivity.
  now rewrite IH.
Qed.

Lemma copy_idem (dst src : list A) :
  copy dst (copy dst src) = copy dst src.
Proof.
  revert src; induction dst as [|d dst IH]; intros [|s src]; simpl; auto.
  - f_equal. clear. induction dst; simpl; congruence.
  - now rewrite IH.
Qed.

Lemma skipn_repeat (a : A) (n k : nat) :
  skipn k (repeat a n) = repeat a (n - k).
Proof.
  revert k; induction n as [|n IH]; intros [|k]; simpl; auto.
Qed.

End ListFacts.

(** ** [divideMessages] and [aggregateBLS] *)

Section MessageFacts.
Context {X : Externals}.

Lemma divideStep_fold (messages secp bls : list SignedMessage) :
  fold_left divideStep messages (secp, bls)
  = (secp ++ filter notBLS messages, bls ++ filter isBLS messages).
Proof.
  revert secp bls.
  induction messages as [|m messages IH]; intros secp bls.
  - simpl. now rewrite !app_nil_r.
  - cbn [fold_left filter].
    assert (Hstep : divideStep (secp, bls) m
                    = if isBLS m then (secp, bls ++ [m])
                      else (secp ++ [m], bls)) by reflexivity.
    rewrite Hstep. unfold notBLS at 1.
    destruct (isBLS m); cbn [negb]; rewrite IH, <- app_assoc; reflexivity.
Qed.

Lemma divideMessages_filter (messages : list SignedMessage) :
  divideMessages messages = (filter notBLS messages, filter isBLS messages).
Proof. unfold divideMessages. now rewrite divideStep_fold. Qed.

Lemma BLSFirst_app (bls secp : list SignedMessage) :
  Forall (fun m => isBLS m = true) bls ->
  Forall (fun m => isBLS m = false) secp ->
  BLSFirst (bls ++ secp).
Proof.
  intros Hb Hs i j mi mj Hi Hj Bi Bj.
  destruct (Nat.lt_ge_cases i (length bls)) as [Li|Li].
  - destruct (Nat.lt_ge_cases j (length bls)) as [Lj|Lj]; [|lia].
    rewrite nth_error_app1 in Hj by assumption.
    apply nth_error_In in Hj.
    rewrite Forall_forall in Hb. rewrite (Hb _ Hj) in Bj. discriminate.
  - rewrite nth_error_app2 in Hi by assumption.
    apply nth_error_In in Hi.
    rewrite Forall_forall in Hs. rewrite (Hs _ Hi) in Bi. discriminate.
Qed.

Lemma Forall_filter_true (f : SignedMessage -> bool) l :
  Forall (fun m => f m = true) (filter f l).
Proof. apply Forall_forall. intros m Hm. now apply filter_In in Hm. Qed.

Lemma Forall_filter_notBLS l :
  Forall (fun m => isBLS m = false) (filter notBLS l).
Proof.
  apply Forall_forall. intros m Hm. apply filter_In in Hm.
  destruct Hm as [_ Hm]. unfold notBLS in Hm.
  now apply negb_true_iff in Hm.
Qed.

Context {B : BlsLib}.

Lemma aggregateStep_fold (msgs : list SignedMessage) sigs unwrapped :
  fold_left aggregateStep msgs (sigs, unwrapped)
  = (sigs ++ map (fun m => toBlsSignature (Signature m)) msgs,
     unwrapped ++ map Message msgs).
Proof.
  revert sigs unwrapped.
  induction msgs as [|m msgs IH]; intros sigs unwrapped; simpl.
  - now rewrite !app_nil_r.
  - rewrite IH, <- !app_assoc. reflexivity.
Qed.

Lemma aggregateBLS_unfold (msgs : list SignedMessage) :
  aggregateBLS msgs
  = match Aggregate (map (fun m => toBlsSignature (Signature m)) msgs) with
    | None => inl "could not aggregate signatures"%string
    | Some sig => inr (map Message msgs, sig)
    end.
Proof. unfold aggregateBLS. now rewrite aggregateStep_fold. Qed.


Lemma toBlsSignature_length (sig : list byte) :
  length (toBlsSignature sig) = SignatureBytes.
Proof. unfold toBlsSignature. now rewrite copy_length, repeat_length. Qed.

Lemma toBlsSignature_pad_truncate (sig : list byte) :
  toBlsSignature sig
  = firstn SignatureBytes sig ++ repeat x00 (SignatureBytes - length sig).
Proof.
  unfold toBlsSignature.
  now rewrite copy_firstn_skipn, repeat_length, skipn_repeat.
Qed.

Lemma toBlsSignature_short (sig : list byte) :
  (length sig <= SignatureBytes)%nat ->
  toBlsSignature sig = sig ++ repeat x00 (SignatureBytes - length sig).
Proof.
  intros H. rewrite toBlsSignature_pad_truncate.
  now rewrite firstn_all2 by assumption.
Qed.

Lemma toBlsSignature_long (sig : list byte) :
  (SignatureBytes <= length sig)%nat ->
  toBlsSignature sig = firstn SignatureBytes sig.
Proof.
  intros H. rewrite toBlsSignature_pad_truncate.
  replace (SignatureBytes - length sig)%nat with 0%nat by lia.
  simpl. now rewrite app_nil_r.
Qed.

Lemma toBlsSignature_idem (sig : list byte) :
  toBlsSignature (toBlsSignature sig) = toBlsSignature sig.
Proof. unfold toBlsSignature. apply copy_idem. Qed.

End MessageFacts.

(** ** Running [Generate] step by step *)

Section RunFacts.
Context {X : Externals} {B : BlsLib} {Mt : Methods}.

Lemma bind_unfold {A C} (m : M A) (f : A -> M C) p :
  bind m f p
  = match m p with
    | (Ok a, p', t) => prepend t (f a p')
    | (Failed err, p', t) => (Failed err, p', t)
    | (Panic msg, p', t) => (Panic msg, p', t)
    end.
Proof. reflexivity. Qed.

Lemma bind_call {A C} ev (r : Error + A) (f : A -> M C) p :
  bind (call ev r) f p
  = match r with
    | inl err => (Failed err, p, [ev])
    | inr a => prepend [ev] (f a p)
    end.
Proof. rewrite bind_unfold. unfold call. now destruct r. Qed.

Lemma bind_emit {C} ev (f : unit -> M C) p :
  bind (emit ev) f p = prepend [ev] (f tt p).
Proof. reflexivity. Qed.

Lemma bind_lift {A C} (r : Error + A) (f : A -> M C) p :
  bind (lift r) f p
  = match r with
    | inl err => (Failed err, p, [])
    | inr a => prepend [] (f a p)
    end.
Proof. rewrite bind_unfold. unfold lift. now destruct r. Qed.

Lemma bind_Pending {C} w (f : slice SignedMessage -> M C) p :
  bind (Pending w) f p
  = prepend [EvPending] (f (messageSource_Pending w p) p).
Proof. reflexivity. Qed.

Lemma collectReceipts_fold (results : list ApplicationResult) acc :
  fold_left (fun receipts r => append receipts (Receipt r)) results
            (mk_slice acc)
  = mk_slice (acc ++ map Receipt results).
Proof.
  revert acc. induction results as [|r results IH]; intros acc; simpl.
  - now rewrite app_nil_r.
  - unfold append at 2. simpl. rewrite IH, <- app_assoc. reflexivity.
Qed.

Lemma collectReceipts_map (results : slice ApplicationResult) :
  collectReceipts results = mk_slice (map Receipt (elems results)).
Proof. unfold collectReceipts. now rewrite collectReceipts_fold. Qed.

(** The loop over the permanent failures returns no error; it calls
    [Cid] and [Remove] only. *)
Lemma removePermanentFailures_run w res msgs :
  forall i p o p' t,
    removePermanentFailures w res i msgs p = (o, p', t) ->
    (forall err, o <> Failed err)
    /\ Forall (fun ev => is_reconcile ev = true) t.
Proof.
  induction msgs as [|msg msgs IH]; intros i p o p' t Hrun.
  - inversion Hrun; subst. split; [discriminate | constructor].
  - cbn [removePermanentFailures] in Hrun.
    rewrite bind_unfold in Hrun. unfold index in Hrun.
    destruct (nth_error (elems (PermanentErrors res)) i).
    2:{ inversion Hrun; subst. split; [discriminate | constructor]. }
    cbn [ret prepend app] in Hrun. rewrite bind_emit in Hrun.
    rewrite bind_unfold in Hrun.
    destruct (SignedMessage_Cid msg) as [cerr|mc].
    + cbn [ret prepend app] in Hrun.
      destruct (removePermanentFailures w res (S i) msgs p)
        as [[o1 p1] t1] eqn:Hrest.
      apply IH in Hrest. destruct Hrest as [Ho Ht].
      cbn in Hrun. inversion Hrun; subst.
      split; [assumption | constructor; [reflexivity | assumption]].
    + unfold Remove in Hrun. cbn [prepend app] in Hrun.
      destruct (removePermanentFailures w res (S i) msgs
                  (messageSource_Remove w mc p))
        as [[o1 p1] t1] eqn:Hrest.
      apply IH in Hrest. destruct Hrest as [Ho Ht].
      cbn in Hrun. inversion Hrun; subst.
      split; [assumption|].
      constructor; [reflexivity|]. constructor; [reflexivity | assumption].
Qed.

(** The loop over the temporary failures calls nothing. *)
Lemma logTemporaryFailures_run res msgs :
  forall i p o p' t,
    logTemporaryFailures res i msgs p = (o, p', t) ->
    (forall err, o <> Failed err) /\ p' = p /\ t = [].
Proof.
  induction msgs as [|msg msgs IH]; intros i p o p' t Hrun.
  - inversion Hrun; subst. repeat split. discriminate.
  - cbn [logTemporaryFailures] in Hrun.
    rewrite bind_unfold in Hrun. unfold index in Hrun.
    destruct (nth_error (elems (TemporaryErrors res)) i).
    2:{ inversion Hrun; subst. repeat split. discriminate. }
    cbn [ret prepend app] in Hrun.
    destruct (logTemporaryFailures res (S i) msgs p)
      as [[o1 p1] t1] eqn:Hrest.
    apply IH in Hrest. destruct Hrest as (Ho & Hp & Ht).
    inversion Hrun; subst. repeat split. assumption.
Qed.

End RunFacts.

(** ** The partition of the messages *)

Section Partition.
Context {X : Externals}.

(** C2: for every input sequence, [divideMessages] returns two
    subsequences of the input (each keeps the relative order of the
    input), the input is a merge of the two, so every message of the
    input goes to exactly one of them (none lost, none duplicated), and
    no message is in both. *)
Theorem divideMessages_partition (messages : list SignedMessage) :
  let secp := fst (divideMessages messages) in
  let bls := snd (divideMessages messages) in
  Interleave secp bls messages
  /\ Subseq secp messages
  /\ Subseq bls messages
  /\ Permutation (secp ++ bls) messages
  /\ (length secp + length bls = length messages)%nat
  /\ Forall (fun m => ~ In m bls) secp.
Proof.
  rewrite divideMessages_filter. cbn [fst snd].
  assert (Hmerge : Interleave (filter notBLS messages)
                              (filter isBLS messages) messages)
    by apply (Interleave_filter isBLS).
  split; [assumption|].
  split; [eapply Interleave_left_sub; eassumption|].
  split; [eapply Interleave_right_sub; eassumption|].
  split; [apply Interleave_perm; assumption|].
  split; [apply Interleave_length; assumption|].
  apply Forall_forall. intros m Hs Hb.
  apply filter_In in Hs. apply filter_In in Hb.
  destruct Hs as [_ Hs]. destruct Hb as [_ Hb].
  unfold notBLS in Hs. rewrite Hb in Hs. discriminate.
Qed.

(** C9: [divideMessages] looks at nothing but whether the protocol of the
    sender is [BLS]: the BLS subsequence is exactly the messages of the
    input whose sender protocol is [BLS], and every other message,
    whatever its protocol, is in the Secp subsequence. *)
Theorem divideMessages_by_protocol (messages : list SignedMessage) :
  snd (divideMessages messages)
  = filter (fun m => Protocol (From_ (Message m)) =? BLS) messages
  /\ fst (divideMessages messages)
     = filter (fun m => negb (Protocol (From_ (Message m)) =? BLS)) messages
  /\ (forall m, In m (snd (divideMessages messages))
                <-> In m messages /\ Protocol (From_ (Message m)) = BLS)
  /\ (forall m, In m (fst (divideMessages messages))
                <-> In m messages /\ Protocol (From_ (Message m)) <> BLS).
Proof.
  rewrite divideMessages_filter. cbn [fst snd].
  split; [reflexivity|]. split; [reflexivity|].
  split; intros m; rewrite filter_In; unfold notBLS, isBLS.
  - now rewrite Z.eqb_eq.
  - now rewrite negb_true_iff, Z.eqb_neq.
Qed.

End Partition.

(** ** The aggregation of the signatures *)

Section Aggregation.
Context {X : Externals}.


Context {B : BlsLib}.

(** C10: [aggregateBLS] checks the length of no signature. Each
    signature is copied into a value of [SignatureBytes] bytes: its first
    [SignatureBytes] bytes, then zeros up to that size (a short signature
    is padded, a long one is cut). The only error is the failure of the
    primitive on these values, and the result is the same as on the
    messages whose signatures are already the padded or cut ones. *)
Theorem aggregateBLS_no_length_check (blsMessages : list SignedMessage) :
  Forall (fun msg =>
            length (toBlsSignature (Signature msg)) = SignatureBytes
            /\ toBlsSignature (Signature msg)
               = firstn SignatureBytes (Signature msg)
                 ++ repeat x00 (SignatureBytes - length (Signature msg)))
         blsMessages
  /\ aggregateBLS blsMessages
     = match Aggregate (map (fun msg => toBlsSignature (Signature msg))
                            blsMessages) with
       | None => inl "could not aggregate signatures"%string
       | Some sig => inr (map Message blsMessages, sig)
       end
  /\ aggregateBLS blsMessages
     = aggregateBLS (map withFixedSignature blsMessages).
Proof.
  split.
  { apply Forall_forall. intros msg _. split.
    - apply toBlsSignature_length.
    - apply toBlsSignature_pad_truncate. }
  split; [apply aggregateBLS_unfold|].
  rewrite !aggregateBLS_unfold, !map_map. cbn [withFixedSignature Message Signature].
  replace (map (fun x => toBlsSignature (toBlsSignature (Signature x)))
               blsMessages)
    with (map (fun msg => toBlsSignature (Signature msg)) blsMessages).
  - reflexivity.
  - apply map_ext. intros msg. now rewrite toBlsSignature_idem.
Qed.

End Aggregation.

(** ** The pipeline of [Generate] *)

(** One step of the run of [Generate]: the call at the head is replaced by
    its two cases, or by its result when a hypothesis gives it. *)
Ltac gen_call r :=
  first
    [ match goal with H : r = _ |- _ => rewrite H end
    | destruct r as [?err|?v] eqn:? ];
  cbn [wrap].

Ltac gen_step :=
  lazymatch goal with
  | |- context [bind (call ?ev (wrap ?msg ?r)) ?f ?p] =>
      rewrite (bind_call ev (wrap msg r) f p); gen_call r
  | |- context [bind (emit ?ev) ?f ?p] => rewrite (bind_emit ev f p)
  | |- context [bind (Pending ?w) ?f ?p] => rewrite (bind_Pending w f p)
  | |- context [bind (lift (wrap ?msg ?r)) ?f ?p] =>
      rewrite (bind_lift (wrap msg r) f p); gen_call r
  | |- context [if negb ?b then _ else _] =>
      first [ match goal with H : b = _ |- _ => rewrite H end
            | destruct b eqn:? ];
      cbn [negb]
  | |- context [divideMessages ?l] => rewrite (divideMessages_filter l)
  | |- context [bind (removePermanentFailures ?a ?b ?c ?d) ?f ?p] =>
      let Hloop := fresh "Hremove" in
      rewrite (bind_unfold (removePermanentFailures a b c d) f p);
      destruct (removePermanentFailures a b c d p)
        as [[[[]|?err|?msg] ?p] ?t] eqn:Hloop;
      apply removePermanentFailures_run in Hloop;
      destruct Hloop as [? ?]
  | |- context [bind (logTemporaryFailures ?b ?c ?d) ?f ?p] =>
      let Hloop := fresh "Hlog" in
      rewrite (bind_unfold (logTemporaryFailures b c d) f p);
      destruct (logTemporaryFailures b c d p)
        as [[[[]|?err|?msg] ?p] ?t] eqn:Hloop;
      apply logTemporaryFailures_run in Hloop;
      destruct Hloop as (? & ? & ?); subst
  | |- context [let '(_, _) := ?v in _] => destruct v as [? ?]
  end.

Ltac gen_run :=
  unfold Generate; repeat gen_step;
  cbn [prepend pool_of trace_of outcome_of fst snd fail ret app].

(** An event that is in a trace: one case for each event of the trace that
    can be equal to it. *)
Ltac in_trace H :=
  repeat
    match type of H with
    | _ \/ _ => destruct H as [H|H]
    | False => contradiction
    | In _ [] => contradiction
    | In _ (_ ++ _) => apply in_app_or in H
    | In _ ?t =>
        match goal with
        | HF : Forall (fun ev => is_reconcile ev = true) t |- _ =>
            rewrite Forall_forall in HF; apply HF in H; discriminate H
        end
    | _ = _ => first [ discriminate H | inversion H; subst; clear H ]
    end.

(** An event that is at a known place of a trace. *)
Ltac in_here := cbn [In]; repeat (first [ left; reflexivity | right ]).

(** The answer of the processor in the run that was followed. *)
Ltac prove_applied :=
  unfold Applied, Prepared;
  do 4 eexists; split; [repeat split; eauto|];
  cbv zeta; rewrite divideMessages_filter; cbn [fst snd]; eassumption.

Section Pipeline.
Context {X : Externals} {B : BlsLib} {Mt : Methods}.
Variables (w : DefaultWorker) (baseTipSet : TipSet) (tickets : list Ticket)
          (electionProof : VRFPi) (nullBlockCount : Z) (pool : Pool).

Local Abbreviation run :=
  (Generate w baseTipSet tickets electionProof nullBlockCount pool).

(** C6: if the power table says that the miner has no power, [Generate]
    returns an error, the pool is as it was, and nothing was called but
    the loading of the state tree, the loading of the power table and the
    question to the power table: no reading of the pending messages, no
    application, no flush, no write to the message store. *)
Theorem Generate_no_power (powerTable : PowerTable) :
  getPowerTable w (Key baseTipSet) = inr powerTable ->
  HasPower powerTable (minerAddr w) = false ->
  (exists err, outcome_of run = Failed err)
  /\ pool_of run = pool
  /\ Forall (fun ev => is_pool_or_store ev = false) (trace_of run)
  /\ (trace_of run = [EvGetStateTree]
      \/ trace_of run = [EvGetStateTree; EvGetPowerTable; EvHasPower]).
Proof.
  intros Htable Hpower. gen_run.
  - split; [eexists; reflexivity|]. split; [reflexivity|].
    split; [repeat constructor | left; reflexivity].
  - split; [eexists; reflexivity|]. split; [reflexivity|].
    split; [repeat constructor | right; reflexivity].
Qed.

(** C3: the removal of the permanently failed messages comes after the
    signature of the block. When [Generate] returns an error, the pool is as
    it was and [Remove] was not called; and in every run the trace splits
    in two: no [Remove] in the first part, and the second part is empty
    unless the first one ends with the call that signed the block, which
    succeeded. *)
Theorem Generate_reconciles_after_signing :
  (forall err, outcome_of run = Failed err ->
     pool_of run = pool
     /\ Forall (fun ev => is_Remove ev = false) (trace_of run))
  /\ exists before after,
       trace_of run = before ++ after
       /\ Forall (fun ev => is_Remove ev = false) before
       /\ (after = []
           \/ exists events data workerAddr sig,
               before = events ++ [EvSignBytes data]
               /\ api_MinerGetWorkerAddress w (minerAddr w) (Key baseTipSet)
                  = inr workerAddr
               /\ workerSigner_SignBytes w data workerAddr = inr sig).
Proof.
  gen_run.
  all: try (split;
            [ intros ? _; split; [reflexivity | repeat constructor]
            | eexists; exists [];
              split; [symmetry; apply app_nil_r|];
              split; [repeat constructor | left; reflexivity] ]).
  all: try (exfalso;
            match goal with H : forall e, Failed ?x <> Failed e |- _ =>
              exact (H x eq_refl) end).
  all: split; [intros ? Hfailed; discriminate Hfailed|].
  all: match goal with |- exists before after, ?tr = _ /\ _ =>
         exists (firstn 15 tr), (skipn 15 tr) end.
  all: cbn [firstn skipn].
  all: split; [reflexivity|]. 
  all: split; [repeat constructor|]. 
  all: right.
  all: match goal with |- exists events _ _ _, ?b = _ /\ _ =>
         exists (removelast b) end.
  all: cbn [removelast]; do 3 eexists.
  all: split; [reflexivity|]; split; [reflexivity | eassumption].
Qed.

(** Where the processor is applied: the calls before it have succeeded,
    the messages are the BLS messages of the drained queue followed by the
    others, the height is that of the new block, and the answer of the
    processor on these arguments decides the run. *)
Lemma Generate_processor_call (messages : list SignedMessage) (height : Z) :
  In (EvApplyMessages messages height) (trace_of run) ->
  let drained := MessageQueue_Drain (messageSource_Pending w pool) in
  exists stateTree weight baseHeight ancestors,
    Prepared w baseTipSet nullBlockCount stateTree weight baseHeight
      ancestors
    /\ height = newBlockHeight baseHeight nullBlockCount
    /\ messages = filter isBLS drained ++ filter notBLS drained
    /\ DecidedByProcessor w (outcome_of run) stateTree messages height
         ancestors.
Proof.
  intros Hin drained. revert Hin. subst drained. gen_run.
  all: cbn [In]; intros Hin; in_trace Hin.
  all: do 4 eexists.
  all: split; [unfold Prepared; repeat split; eauto|].
  all: split; [reflexivity|]; split; [reflexivity|].
  all: unfold DecidedByProcessor; split.
  all: try (intros ? Happly; congruence).
  all: intros ? ? ? Happly; split.
  all: try (intros ? Hflush; congruence).
  all: intros blk Hblk; try discriminate Hblk.
  all: inversion Hblk; subst; clear Hblk.
  all: cbn [StateRoot set_BlockSig]; congruence.
Qed.

(** When the calls before it have succeeded, the processor is applied. *)
Lemma Generate_reaches_application stateTree weight baseHeight ancestors :
  Prepared w baseTipSet nullBlockCount stateTree weight baseHeight
    ancestors ->
  let drained := MessageQueue_Drain (messageSource_Pending w pool) in
  In (EvApplyMessages
        (snd (divideMessages drained) ++ fst (divideMessages drained))
        (newBlockHeight baseHeight nullBlockCount))
     (trace_of run).
Proof.
  intros (Htree & (powerTable & Htable & Hpower) & Hweight & Hheight
          & Hancestors) drained.
  subst drained. rewrite divideMessages_filter. cbn [fst snd].
  gen_run.
  all: in_here.
Qed.

(** C1: whatever the message queue drains from the pending messages, the
    sequence given to the processor is the BLS messages of the drained
    sequence followed by its other messages, each part in the order of the
    drained sequence; a BLS message is before every message of another
    protocol. It is the argument of the call: the answer of the processor
    on that sequence decides the run. And the application is reached
    whenever the calls before it succeed. *)
Theorem Generate_applies_BLS_first :
  let drained := MessageQueue_Drain (messageSource_Pending w pool) in
  (forall messages height,
     In (EvApplyMessages messages height) (trace_of run) ->
     messages = snd (divideMessages drained) ++ fst (divideMessages drained)
     /\ messages = filter isBLS drained ++ filter notBLS drained
     /\ BLSFirst messages
     /\ exists stateTree weight baseHeight ancestors,
          Prepared w baseTipSet nullBlockCount stateTree weight baseHeight
            ancestors
          /\ height = newBlockHeight baseHeight nullBlockCount
          /\ DecidedByProcessor w (outcome_of run) stateTree messages height
               ancestors)
  /\ (forall stateTree weight baseHeight ancestors,
        Prepared w baseTipSet nullBlockCount stateTree weight baseHeight
          ancestors ->
        In (EvApplyMessages
              (snd (divideMessages drained) ++ fst (divideMessages drained))
              (newBlockHeight baseHeight nullBlockCount))
           (trace_of run)).
Proof.
  intros drained. split.
  - intros messages height Hin.
    destruct (Generate_processor_call messages height Hin)
      as (stateTree & weight & baseHeight & ancestors & Hprep & Hheight
          & Hmessages & Hdecided).
    fold drained in Hmessages.
    rewrite divideMessages_filter. cbn [fst snd].
    split; [assumption|]. split; [assumption|]. split.
    + rewrite Hmessages.
      apply BLSFirst_app;
        [apply Forall_filter_true | apply Forall_filter_notBLS].
    + exists stateTree, weight, baseHeight, ancestors.
      split; [assumption|]. split; assumption.
  - intros stateTree weight baseHeight ancestors Hprep.
    exact (Generate_reaches_application stateTree weight baseHeight
             ancestors Hprep).
Qed.

(** C5: the receipts given to the message store are the receipts of the
    results of the response of the processor to the call of this run, one
    for each result and in their order; the slice is never nil, so it is
    the empty slice when there is no result. They are the argument of the
    call: an error of the store on them is the error of the run, and the
    block that is returned refers to what the store answered for them. *)
Theorem Generate_receipts :
  (forall receipts,
     In (EvStoreReceipts receipts) (trace_of run) ->
     exists res stateTree' vms',
       Applied w baseTipSet nullBlockCount pool res stateTree' vms'
       /\ receipts = mk_slice (map Receipt (elems (Results res)))
       /\ is_nil receipts = false
       /\ len receipts = len (Results res)
       /\ (elems (Results res) = [] -> receipts = mk_slice [])
       /\ (forall err,
             messageStore_StoreReceipts w receipts = inl err ->
             outcome_of run = Failed (Wrap err "error persisting receipts"))
       /\ (forall blk,
             outcome_of run = Ok blk ->
             messageStore_StoreReceipts w receipts
             = inr (MessageReceipts blk)))
  /\ (forall blk,
        outcome_of run = Ok blk ->
        exists res stateTree' vms',
          Applied w baseTipSet nullBlockCount pool res stateTree' vms'
          /\ In (EvStoreReceipts (mk_slice (map Receipt (elems (Results res)))))
                (trace_of run)
          /\ messageStore_StoreReceipts w
               (mk_slice (map Receipt (elems (Results res))))
             = inr (MessageReceipts blk)).
Proof.
  gen_run.
  all: try (exfalso;
            match goal with H : forall e, Failed ?x <> Failed e |- _ =>
              exact (H x eq_refl) end).
  all: rewrite ?collectReceipts_map in *.
  all: split.
  all: try (intros blk Hblk; discriminate Hblk).
  all: try (intros receipts Hin; cbn [In] in Hin; in_trace Hin; fail).
  all: try (intros receipts Hin; cbn [In] in Hin; in_trace Hin;
            do 3 eexists; split; [prove_applied|];
            split; [reflexivity|]; split; [reflexivity|];
            split; [unfold len; cbn [elems]; apply length_map|];
            split; [intros Hnone; rewrite Hnone; reflexivity|];
            split;
            [ intros ? Hstore; congruence
            | intros blk Hblk; try discriminate Hblk;
              inversion Hblk; subst; clear Hblk;
              cbn [MessageReceipts set_BlockSig]; congruence ]).
  all: intros blk Hblk; inversion Hblk; subst; clear Hblk.
  all: do 3 eexists; split; [prove_applied|].
  all: split; [in_here | cbn [MessageReceipts set_BlockSig]; assumption].
Qed.

(** C7 (as amended): for a parent tip set of height [baseHeight] and a null
    block count, both at least zero, the height given to the ancestor
    lookup, the height given to the processor and the height of the block
    that is returned are all [(baseHeight + nullBlockCount + 1) mod 2^64],
    which is [baseHeight + nullBlockCount + 1] when that is below [2^64].
    It is the argument of the two calls: an error of the lookup at that
    height is the error of the run, the answer of the processor at that
    height, with the ancestors the lookup returned at that height, decides
    the run, and a block is returned from nothing else. *)
Theorem Generate_height (baseHeight : Z) :
  Height baseTipSet = inr baseHeight ->
  0 <= baseHeight -> 0 <= nullBlockCount ->
  let blockHeight := (baseHeight + nullBlockCount + 1) mod two64 in
  (baseHeight + nullBlockCount + 1 < two64 ->
   blockHeight = baseHeight + nullBlockCount + 1)
  /\ (forall height,
        In (EvGetAncestors height) (trace_of run) ->
        height = blockHeight
        /\ forall err,
             getAncestors w baseTipSet blockHeight = inl err ->
             outcome_of run
             = Failed (Wrap err "get base tip set ancestors"))
  /\ (forall messages height,
        In (EvApplyMessages messages height) (trace_of run) ->
        height = blockHeight
        /\ exists stateTree ancestors,
             getStateTree w baseTipSet = inr stateTree
             /\ getAncestors w baseTipSet blockHeight = inr ancestors
             /\ DecidedByProcessor w (outcome_of run) stateTree messages
                  blockHeight ancestors)
  /\ (forall blk,
        outcome_of run = Ok blk ->
        BlockHeight blk = blockHeight
        /\ In (EvGetAncestors blockHeight) (trace_of run)
        /\ exists messages stateTree ancestors res stateTree' vms',
             In (EvApplyMessages messages blockHeight) (trace_of run)
             /\ getStateTree w baseTipSet = inr stateTree
             /\ getAncestors w baseTipSet blockHeight = inr ancestors
             /\ processor_ApplyMessagesAndPayRewards w stateTree
                  (NewStorageMap (blockstore w)) messages (minerOwnerAddr w)
                  blockHeight ancestors
                = inr (res, stateTree', vms')
             /\ StateTree_Flush stateTree' = inr (StateRoot blk)).
Proof.
  intros Hheight Hbase Hnull blockHeight.
  assert (Hnew : newBlockHeight baseHeight nullBlockCount = blockHeight).
  { unfold newBlockHeight, add64, blockHeight.
    now rewrite Zplus_mod_idemp_l. }
  split.
  { intros Hsmall. unfold blockHeight. apply Z.mod_small. lia. }
  clearbody blockHeight. subst blockHeight.
  split; [|split].
  - intros height Hin. revert Hin. gen_run.
    all: cbn [In]; intros Hin; in_trace Hin.
    all: split; [reflexivity|].
    all: intros ? Hlookup; congruence.
  - intros messages height Hin.
    destruct (Generate_processor_call messages height Hin)
      as (stateTree & weight & baseHeight' & ancestors & Hprep & Hh
          & _ & Hdecided).
    destruct Hprep as (Htree & _ & _ & Hheight' & Hancestors).
    assert (baseHeight' = baseHeight) by congruence. subst baseHeight'.
    subst height. split; [reflexivity|].
    exists stateTree, ancestors.
    split; [assumption|]. split; [assumption | exact Hdecided].
  - gen_run.
    all: try (exfalso;
              match goal with H : forall e, Failed ?x <> Failed e |- _ =>
                exact (H x eq_refl) end).
    all: intros blk Hblk; try discriminate Hblk.
    all: inversion Hblk; subst; clear Hblk.
    all: cbn [BlockHeight StateRoot set_BlockSig].
    all: split; [reflexivity|]; split; [in_here|].
    all: do 6 eexists; split; [in_here|].
    all: repeat split; solve [reflexivity | eassumption].
Qed.

(** C8: once the processor has returned, the state tree is flushed, and
    then the storage map. If the flush of the state tree fails, [Generate]
    returns that error and the flush was its last call; if the flush of the
    storage map fails, likewise; and a block that is returned has for state
    root what the flush of the state tree returned, both flushes having
    succeeded. *)
Theorem Generate_flushes stateTree powerTable weight baseHeight ancestors
    res stateTree' vms' :
  getStateTree w baseTipSet = inr stateTree ->
  getPowerTable w (Key baseTipSet) = inr powerTable ->
  HasPower powerTable (minerAddr w) = true ->
  getWeight w baseTipSet = inr weight ->
  Height baseTipSet = inr baseHeight ->
  let blockHeight := newBlockHeight baseHeight nullBlockCount in
  getAncestors w baseTipSet blockHeight = inr ancestors ->
  let drained := MessageQueue_Drain (messageSource_Pending w pool) in
  let messages :=
    snd (divideMessages drained) ++ fst (divideMessages drained) in
  processor_ApplyMessagesAndPayRewards w stateTree
    (NewStorageMap (blockstore w)) messages (minerOwnerAddr w) blockHeight
    ancestors = inr (res, stateTree', vms') ->
  (exists rest,
     trace_of run
     = eventsToApply messages blockHeight ++ EvFlushStateTree :: rest
     /\ (rest = [] \/ exists rest', rest = EvFlushStorageMap :: rest'))
  /\ (forall err,
        StateTree_Flush stateTree' = inl err ->
        outcome_of run = Failed (Wrap err "generate flush state tree")
        /\ pool_of run = pool
        /\ trace_of run
           = eventsToApply messages blockHeight ++ [EvFlushStateTree])
  /\ (forall root err,
        StateTree_Flush stateTree' = inr root ->
        StorageMap_Flush vms' = inl err ->
        outcome_of run = Failed (Wrap err "generate flush vm storage map")
        /\ pool_of run = pool
        /\ trace_of run
           = eventsToApply messages blockHeight
             ++ [EvFlushStateTree; EvFlushStorageMap])
  /\ (forall blk,
        outcome_of run = Ok blk ->
        StateTree_Flush stateTree' = inr (StateRoot blk)
        /\ StorageMap_Flush vms' = inr tt).
Proof.
  intros Htree Htable Hpower Hweight Hheight blockHeight Hancestors
         drained messages Hres.
  subst messages drained blockHeight.
  rewrite divideMessages_filter in *. cbn [fst snd] in *.
  unfold eventsToApply. gen_run.
  all: try (exfalso;
            match goal with H : forall e, Failed ?x <> Failed e |- _ =>
              exact (H x eq_refl) end).
  all: split;
    [ eexists; split;
      [ reflexivity
      | first [ left; reflexivity | right; eexists; reflexivity ] ] |].
  all: split;
    [ intros ? Hflush; try discriminate Hflush;
      inversion Hflush; subst; repeat split |].
  all: split;
    [ intros ? ? Hflush Hvms; try discriminate Hflush;
      try discriminate Hvms; inversion Hvms; subst; repeat split |].
  all: intros blk Hblk; try discriminate Hblk.
  all: inversion Hblk; subst; clear Hblk.
  all: cbn [StateRoot set_BlockSig].
  all: split; [reflexivity|].
  all: match goal with |- inr ?u = inr tt => destruct u; reflexivity end.
Qed.

End Pipeline.

(** ** The properties on the small instance *)

Section Instances.
#[local] Existing Instance Toy.externals.
#[local] Existing Instance Toy.bls.
#[local] Existing Instance Toy.methods.

Example divideMessages_toy :
  divideMessages (map Toy.signed Toy.pool)
  = ([Toy.signed (1, 2%nat); Toy.signed (1, 1%nat)],
     [Toy.signed (3, 0%nat); Toy.signed (3, 4%nat)]).
Proof. reflexivity. Qed.

(** A signature of one byte is padded, one of a hundred bytes is cut. *)
Example toBlsSignature_toy :
  toBlsSignature [x01] = x01 :: repeat x00 95
  /\ toBlsSignature (repeat x01 100) = repeat x01 96.
Proof. split; reflexivity. Qed.

(** Two signatures of the wrong length are aggregated without error. *)
Example aggregateBLS_toy :
  aggregateBLS [Toy.signed (3, 0%nat);
                {| Message := (3, 4%nat);
                   Signature := x01 :: x01 :: repeat x00 98 |}]
  = inr ([(3, 0%nat); (3, 4%nat)], repeat x01 3 ++ repeat x00 93).
Proof. vm_compute. reflexivity. Qed.



Lemma Generate_applies_BLS_first_witness :
  In (EvApplyMessages Toy.applied_order 11)
     (trace_of (Toy.run true true 10 0))
  /\ Toy.applied_order
     = filter isBLS (map Toy.signed Toy.pool)
       ++ filter notBLS (map Toy.signed Toy.pool)
  /\ BLSFirst Toy.applied_order
  /\ exists stateTree weight baseHeight ancestors,
       Prepared (Toy.worker true true) 10 0 stateTree weight baseHeight
         ancestors
       /\ 11 = newBlockHeight baseHeight 0
       /\ DecidedByProcessor (Toy.worker true true)
            (outcome_of (Toy.run true true 10 0)) stateTree
            Toy.applied_order 11 ancestors.
Proof.
  assert (Hin : In (EvApplyMessages Toy.applied_order 11)
                   (trace_of (Toy.run true true 10 0))).
  { vm_compute. do 7 right. left. reflexivity. }
  split; [exact Hin|].
  exact (proj2 (proj1 (Generate_applies_BLS_first (Toy.worker true true) 10
                         [] tt 0 Toy.pool)
                  Toy.applied_order 11 Hin)).
Defined.

Lemma Generate_reconciles_after_signing_witness :
  outcome_of (Toy.run true false 10 0)
  = Failed "generate flush state tree: store closed"%string
  /\ pool_of (Toy.run true false 10 0) = Toy.pool
  /\ Forall (fun ev => is_Remove ev = false)
            (trace_of (Toy.run true false 10 0))
  /\ exists before after,
       trace_of (Toy.run true true 10 0) = before ++ after
       /\ Forall (fun ev => is_Remove ev = false) before
       /\ (after = []
           \/ exists events data workerAddr sig,
               before = events ++ [EvSignBytes data]
               /\ api_MinerGetWorkerAddress (Toy.worker true true)
                    (minerAddr (Toy.worker true true)) (Key 10)
                  = inr workerAddr
               /\ workerSigner_SignBytes (Toy.worker true true) data
                    workerAddr = inr sig).
Proof.
  assert (Hfailed : outcome_of (Toy.run true false 10 0)
                    = Failed "generate flush state tree: store closed"%string)
    by reflexivity.
  split; [exact Hfailed|].
  split; [|split].
  - exact (proj1 (proj1 (Generate_reconciles_after_signing
                           (Toy.worker true false) 10 [] tt 0 Toy.pool)
                    _ Hfailed)).
  - exact (proj2 (proj1 (Generate_reconciles_after_signing
                           (Toy.worker true false) 10 [] tt 0 Toy.pool)
                    _ Hfailed)).
  - exact (proj2 (Generate_reconciles_after_signing
                    (Toy.worker true true) 10 [] tt 0 Toy.pool)).
Defined.

Lemma Generate_receipts_witness :
  In (EvStoreReceipts (mk_slice [0; 4; 2]%nat))
     (trace_of (Toy.run true true 10 0))
  /\ exists res stateTree' vms',
       Applied (Toy.worker true true) 10 0 Toy.pool res stateTree' vms'
       /\ mk_slice [0; 4; 2]%nat = mk_slice (map Receipt (elems (Results res)))
       /\ is_nil (mk_slice [0; 4; 2]%nat) = false
       /\ len (mk_slice [0; 4; 2]%nat) = len (Results res)
       /\ (elems (Results res) = [] -> mk_slice [0; 4; 2]%nat = mk_slice [])
       /\ (forall err,
             messageStore_StoreReceipts (Toy.worker true true)
               (mk_slice [0; 4; 2]%nat) = inl err ->
             outcome_of (Toy.run true true 10 0)
             = Failed (Wrap err "error persisting receipts"))
       /\ (forall blk,
             outcome_of (Toy.run true true 10 0) = Ok blk ->
             messageStore_StoreReceipts (Toy.worker true true)
               (mk_slice [0; 4; 2]%nat)
             = inr (MessageReceipts blk)).
Proof.
  assert (Hin : In (EvStoreReceipts (mk_slice [0; 4; 2]%nat))
                   (trace_of (Toy.run true true 10 0))).
  { vm_compute. do 11 right. left. reflexivity. }
  split; [exact Hin|].
  exact (proj1 (Generate_receipts (Toy.worker true true) 10 [] tt 0 Toy.pool)
           _ Hin).
Defined.

Lemma Generate_no_power_witness :
  getPowerTable (Toy.worker false true) (Key 10) = inr false
  /\ HasPower false (minerAddr (Toy.worker false true)) = false
  /\ (exists err, outcome_of (Toy.run false true 10 0) = Failed err)
  /\ pool_of (Toy.run false true 10 0) = Toy.pool
  /\ Forall (fun ev => is_pool_or_store ev = false)
            (trace_of (Toy.run false true 10 0))
  /\ (trace_of (Toy.run false true 10 0) = [EvGetStateTree]
      \/ trace_of (Toy.run false true 10 0)
         = [EvGetStateTree; EvGetPowerTable; EvHasPower]).
Proof.
  split; [reflexivity|]. split; [reflexivity|].
  exact (Generate_no_power (Toy.worker false true) 10 [] tt 0 Toy.pool false
           eq_refl eq_refl).
Defined.

Lemma Generate_height_witness :
  Height 10 = inr 10
  /\ 0 <= 10 /\ 0 <= 0
  /\ (forall height,
        In (EvGetAncestors height) (trace_of (Toy.run true true 10 0)) ->
        height = (10 + 0 + 1) mod two64
        /\ forall err,
             getAncestors (Toy.worker true true) 10 ((10 + 0 + 1) mod two64)
             = inl err ->
             outcome_of (Toy.run true true 10 0)
             = Failed (Wrap err "get base tip set ancestors"))
  /\ (forall messages height,
        In (EvApplyMessages messages height)
           (trace_of (Toy.run true true 10 0)) ->
        height = (10 + 0 + 1) mod two64
        /\ exists stateTree ancestors,
             getStateTree (Toy.worker true true) 10 = inr stateTree
             /\ getAncestors (Toy.worker true true) 10
                  ((10 + 0 + 1) mod two64) = inr ancestors
             /\ DecidedByProcessor (Toy.worker true true)
                  (outcome_of (Toy.run true true 10 0)) stateTree messages
                  ((10 + 0 + 1) mod two64) ancestors)
  /\ (forall blk,
        outcome_of (Toy.run true true 10 0) = Ok blk ->
        BlockHeight blk = (10 + 0 + 1) mod two64
        /\ In (EvGetAncestors ((10 + 0 + 1) mod two64))
              (trace_of (Toy.run true true 10 0))
        /\ exists messages stateTree ancestors res stateTree' vms',
             In (EvApplyMessages messages ((10 + 0 + 1) mod two64))
                (trace_of (Toy.run true true 10 0))
             /\ getStateTree (Toy.worker true true) 10 = inr stateTree
             /\ getAncestors (Toy.worker true true) 10
                  ((10 + 0 + 1) mod two64) = inr ancestors
             /\ processor_ApplyMessagesAndPayRewards (Toy.worker true true)
                  stateTree (NewStorageMap tt) messages 1
                  ((10 + 0 + 1) mod two64) ancestors
                = inr (res, stateTree', vms')
             /\ StateTree_Flush stateTree' = inr (StateRoot blk)).
Proof.
  split; [reflexivity|]. split; [lia|]. split; [lia|].
  refine (proj2 (Generate_height (Toy.worker true true) 10 [] tt 0 Toy.pool
                   10 eq_refl _ _)); lia.
Defined.

(** C7, as it is stated, fails when the sum passes [2^64]: from a parent of
    height [2^64 - 1] and no null block, the ancestors are looked up at
    height 0 and the block that is returned has height 0. *)
Lemma Generate_height_wraps :
  exists blk,
    Height (two64 - 1) = inr (two64 - 1)
    /\ outcome_of (Toy.run true true (two64 - 1) 0) = Ok blk
    /\ In (EvGetAncestors 0) (trace_of (Toy.run true true (two64 - 1) 0))
    /\ BlockHeight blk = 0
    /\ BlockHeight blk <> (two64 - 1) + 0 + 1.
Proof.
  eexists. split; [reflexivity|].
  split; [vm_compute; reflexivity|].
  split; [vm_compute; do 5 right; left; reflexivity|].
  split; [reflexivity|].
  vm_compute. discriminate.
Qed.

Lemma Generate_flushes_witness :
  outcome_of (Toy.run true false 10 0)
  = Failed (Wrap "store closed"%string "generate flush state tree"%string)
  /\ pool_of (Toy.run true false 10 0) = Toy.pool
  /\ trace_of (Toy.run true false 10 0)
     = eventsToApply Toy.applied_order 11 ++ [EvFlushStateTree].
Proof.
  refine (proj1 (proj2 (Generate_flushes (Toy.worker true false) 10 [] tt 0
                          Toy.pool false true 100 10 [10]
                          (Toy.response Toy.applied_order) false true
                          eq_refl eq_refl eq_refl eq_refl eq_refl eq_refl
                          eq_refl))
                "store closed"%string eq_refl).
Defined.

End Instances.

(** ** The failure loops within and beyond the error slices *)

Lemma In_firstn_In {A : Type} (x : A) (n : nat) (l : list A) :
  In x (firstn n l) -> In x l.
Proof.
  revert l. induction n as [|n IH]; intros [|a l]; cbn [firstn In];
    try contradiction.
  intros [Hx|Hx]; [left; exact Hx | right; apply IH; exact Hx].
Qed.

Section LoopFacts.
Context {X : Externals} {B : BlsLib} {Mt : Methods}.
Variables (w : DefaultWorker) (res : ApplyMessagesResponse).

Lemma reconcile_cons (msg : SignedMessage) msgs p :
  reconcile w (msg :: msgs) p
  = reconcile w msgs
      match SignedMessage_Cid msg with
      | inr mc => messageSource_Remove w mc p
      | inl _ => p
      end.
Proof. reflexivity. Qed.

Lemma removePermanentFailures_within msgs :
  forall i p,
    (i + length msgs <= length (elems (PermanentErrors res)))%nat ->
    removePermanentFailures w res i msgs p
    = (Ok tt, reconcile w msgs p, reconcileEvents msgs).
Proof.
  induction msgs as [|msg msgs IH]; intros i p Hlen.
  - reflexivity.
  - cbn [length] in Hlen.
    cbn [removePermanentFailures]. rewrite bind_unfold. unfold index.
    destruct (nth_error (elems (PermanentErrors res)) i) eqn:Hi.
    2:{ apply nth_error_None in Hi. lia. }
    cbn [ret prepend app]. rewrite bind_emit, bind_unfold.
    rewrite reconcile_cons. cbn [reconcileEvents flat_map].
    destruct (SignedMessage_Cid msg) as [cerr|mc].
    + cbn [ret prepend app]. rewrite IH by lia. reflexivity.
    + unfold Remove. cbn [prepend app]. rewrite IH by lia. reflexivity.
Qed.

Lemma removePermanentFailures_short msgs :
  forall i p,
    (i <= length (elems (PermanentErrors res)))%nat ->
    (length (elems (PermanentErrors res)) < i + length msgs)%nat ->
    let k := (length (elems (PermanentErrors res)) - i)%nat in
    removePermanentFailures w res i msgs p
    = (Panic "index out of range"%string,
       reconcile w (firstn k msgs) p, reconcileEvents (firstn k msgs)).
Proof.
  induction msgs as [|msg msgs IH]; intros i p Hi Hlen k.
  - cbn [length] in Hlen. lia.
  - cbn [length] in Hlen.
    cbn [removePermanentFailures]. rewrite bind_unfold. unfold index.
    destruct (nth_error (elems (PermanentErrors res)) i) eqn:Hnth.
    + assert (Hlt : (i < length (elems (PermanentErrors res)))%nat).
      { apply nth_error_Some. congruence. }
      assert (Hk : k = S (length (elems (PermanentErrors res)) - S i))
        by (unfold k; lia).
      rewrite Hk. cbn [firstn]. rewrite reconcile_cons.
      cbn [reconcileEvents flat_map].
      cbn [ret prepend app]. rewrite bind_emit, bind_unfold.
      destruct (SignedMessage_Cid msg) as [cerr|mc].
      * cbn [ret prepend app]. rewrite IH by lia. reflexivity.
      * unfold Remove. cbn [prepend app]. rewrite IH by lia. reflexivity.
    + apply nth_error_None in Hnth.
      assert (Hk : k = 0%nat) by (unfold k; lia).
      rewrite Hk. reflexivity.
Qed.

(** The two ways the loop over the permanent failures ends. *)
Lemma removePermanentFailures_cases p :
  let msgs := elems (PermanentFailures res) in
  let n := length (elems (PermanentErrors res)) in
  ((length msgs <= n)%nat
   /\ removePermanentFailures w res 0 msgs p
      = (Ok tt, reconcile w msgs p, reconcileEvents msgs))
  \/ ((n < length msgs)%nat
      /\ removePermanentFailures w res 0 msgs p
         = (Panic "index out of range"%string,
            reconcile w (firstn n msgs) p,
            reconcileEvents (firstn n msgs))).
Proof.
  intros msgs n.
  destruct (Nat.le_gt_cases (length msgs) n) as [Hle|Hgt].
  - left. split; [assumption|].
    apply removePermanentFailures_within. exact Hle.
  - right. split; [assumption|].
    rewrite removePermanentFailures_short by (cbn; lia).
    fold n. now rewrite Nat.sub_0_r.
Qed.

Lemma logTemporaryFailures_within msgs :
  forall i p,
    (i + length msgs <= length (elems (TemporaryErrors res)))%nat ->
    logTemporaryFailures res i msgs p = (Ok tt, p, []).
Proof.
  induction msgs as [|msg msgs IH]; intros i p Hlen.
  - reflexivity.
  - cbn [length] in Hlen.
    cbn [logTemporaryFailures]. rewrite bind_unfold. unfold index.
    destruct (nth_error (elems (TemporaryErrors res)) i) eqn:Hi.
    2:{ apply nth_error_None in Hi. lia. }
    cbn [ret prepend app]. rewrite IH by lia. reflexivity.
Qed.

Lemma logTemporaryFailures_short msgs :
  forall i p,
    (i <= length (elems (TemporaryErrors res)))%nat ->
    (length (elems (TemporaryErrors res)) < i + length msgs)%nat ->
    logTemporaryFailures res i msgs p
    = (Panic "index out of range"%string, p, []).
Proof.
  induction msgs as [|msg msgs IH]; intros i p Hi Hlen.
  - cbn [length] in Hlen. lia.
  - cbn [length] in Hlen.
    cbn [logTemporaryFailures]. rewrite bind_unfold. unfold index.
    destruct (nth_error (elems (TemporaryErrors res)) i) eqn:Hnth.
    + assert (Hlt : (i < length (elems (TemporaryErrors res)))%nat).
      { apply nth_error_Some. congruence. }
      cbn [ret prepend app]. rewrite IH by lia. reflexivity.
    + reflexivity.
Qed.

(** The two ways the loop over the temporary failures ends. *)
Lemma logTemporaryFailures_cases p :
  let msgs := elems (TemporaryFailures res) in
  let n := length (elems (TemporaryErrors res)) in
  ((length msgs <= n)%nat
   /\ logTemporaryFailures res 0 msgs p = (Ok tt, p, []))
  \/ ((n < length msgs)%nat
      /\ logTemporaryFailures res 0 msgs p
         = (Panic "index out of range"%string, p, [])).
Proof.
  intros msgs n.
  destruct (Nat.le_gt_cases (length msgs) n) as [Hle|Hgt].
  - left. split; [assumption|].
    apply logTemporaryFailures_within. exact Hle.
  - right. split; [assumption|].
    apply logTemporaryFailures_short; cbn; lia.
Qed.

Lemma reconcileEvents_Remove (msgs : list SignedMessage) mc :
  In (EvRemove mc) (reconcileEvents msgs) ->
  exists msg, In msg msgs /\ SignedMessage_Cid msg = inr mc.
Proof.
  induction msgs as [|msg msgs IH]; cbn [reconcileEvents flat_map].
  - intros [].
  - intros Hin. apply in_app_or in Hin. destruct Hin as [Hin|Hin].
    + exists msg. split; [left; reflexivity|].
      cbn [In] in Hin. destruct Hin as [Hin|Hin]; [discriminate Hin|].
      destruct (SignedMessage_Cid msg) as [cerr|mc'].
      * destruct Hin.
      * cbn [In] in Hin. destruct Hin as [Hin|[]].
        inversion Hin. reflexivity.
    + destruct (IH Hin) as (msg' & Hmsg & Hcid).
      exists msg'. split; [right; assumption | assumption].
Qed.

Lemma reconcileEvents_kind (msgs : list SignedMessage) :
  Forall (fun ev => is_reconcile ev = true) (reconcileEvents msgs).
Proof.
  induction msgs as [|msg msgs IH]; cbn [reconcileEvents flat_map].
  - constructor.
  - apply Forall_app. split; [|exact IH].
    constructor; [reflexivity|].
    destruct (SignedMessage_Cid msg); repeat constructor.
Qed.

(** X15: the loop over the permanent failures, by the length of the slice of
    their errors. With an error for each failure the loop ends without
    error, having removed from the pool each failure whose content
    identifier can be computed; with fewer errors it panics at the first
    failure that has no error, the failures before it having been
    removed. *)
Theorem removePermanentFailures_bounds (p : Pool) :
  let msgs := elems (PermanentFailures res) in
  let n := length (elems (PermanentErrors res)) in
  ((length msgs <= n)%nat ->
   removePermanentFailures w res 0 msgs p
   = (Ok tt, reconcile w msgs p, reconcileEvents msgs))
  /\ ((n < length msgs)%nat ->
      removePermanentFailures w res 0 msgs p
      = (Panic "index out of range"%string,
         reconcile w (firstn n msgs) p, reconcileEvents (firstn n msgs))).
Proof.
  intros msgs n. split; intros Hlen.
  - apply removePermanentFailures_within. exact Hlen.
  - rewrite removePermanentFailures_short by (cbn; lia).
    fold n. now rewrite Nat.sub_0_r.
Qed.

End LoopFacts.

(** ** More on the partition and on the aggregation *)

Section PartitionMore.
Context {X : Externals}.

Lemma filter_negb_disjoint {A : Type} (f : A -> bool) (l : list A) :
  filter f (filter (fun x => negb (f x)) l) = []
  /\ filter (fun x => negb (f x)) (filter f l) = [].
Proof.
  split; induction l as [|a l IH]; cbn [filter]; try reflexivity.
  - destruct (f a) eqn:Ha; cbn [negb filter]; [exact IH|].
    rewrite Ha. exact IH.
  - destruct (f a) eqn:Ha; cbn [negb filter]; [|exact IH].
    rewrite Ha. exact IH.
Qed.

Lemma filter_isBLS_notBLS (l : list SignedMessage) :
  filter isBLS (filter notBLS l) = [] /\ filter notBLS (filter isBLS l) = [].
Proof. exact (filter_negb_disjoint isBLS l). Qed.

Lemma filter_idem {A : Type} (f : A -> bool) (l : list A) :
  filter f (filter f l) = filter f l.
Proof.
  induction l as [|a l IH]; simpl; [reflexivity|].
  destruct (f a) eqn:Ha; simpl; [rewrite Ha, IH|]; auto.
Qed.

(** X10: dividing a concatenation is dividing its two parts and
    concatenating the results, side by side. *)
Theorem divideMessages_app (l1 l2 : list SignedMessage) :
  divideMessages (l1 ++ l2)
  = (fst (divideMessages l1) ++ fst (divideMessages l2),
     snd (divideMessages l1) ++ snd (divideMessages l2)).
Proof.
  rewrite !divideMessages_filter. cbn [fst snd].
  now rewrite !filter_app.
Qed.

(** X11: dividing again what was divided changes nothing: the order in
    which [Generate] applies the messages, BLS part first, divides into the
    same two subsequences, the Secp part has no BLS message and the BLS
    part has nothing but BLS messages. *)
Theorem divideMessages_stable (messages : list SignedMessage) :
  let secp := fst (divideMessages messages) in
  let bls := snd (divideMessages messages) in
  divideMessages (bls ++ secp) = (secp, bls)
  /\ divideMessages secp = (secp, [])
  /\ divideMessages bls = ([], bls).
Proof.
  cbv zeta. rewrite !divideMessages_filter. cbn [fst snd].
  rewrite !filter_app, !filter_idem.
  destruct (filter_isBLS_notBLS messages) as [Hbn Hnb].
  rewrite Hbn, Hnb, app_nil_r. repeat split.
Qed.

Context {B : BlsLib}.

Lemma toBlsSignature_exact (sig : list byte) :
  length sig = SignatureBytes -> toBlsSignature sig = sig.
Proof.
  intros Hlen. rewrite toBlsSignature_short by lia.
  rewrite Hlen, Nat.sub_diag. apply app_nil_r.
Qed.

Lemma firstn_repeat_fill {A : Type} (x : A) (a k : nat) :
  firstn a (repeat x k) ++ repeat x (a - k) = repeat x a.
Proof.
  revert k. induction a as [|a IH]; intros [|k]; cbn; try reflexivity.
  f_equal. apply IH.
Qed.

Lemma toBlsSignature_zeros (sig : list byte) (k : nat) :
  toBlsSignature (sig ++ repeat x00 k) = toBlsSignature sig.
Proof.
  rewrite !toBlsSignature_pad_truncate.
  rewrite firstn_app, <- app_assoc. f_equal.
  rewrite length_app, repeat_length.
  replace (SignatureBytes - (length sig + k))%nat
    with (SignatureBytes - length sig - k)%nat by lia.
  apply firstn_repeat_fill.
Qed.

(** X12: signatures that have the size of a BLS signature are given to the
    primitive as they are. *)
Theorem aggregateBLS_exact_size (blsMessages : list SignedMessage) :
  Forall (fun msg => length (Signature msg) = SignatureBytes) blsMessages ->
  aggregateBLS blsMessages
  = match Aggregate (map Signature blsMessages) with
    | None => inl "could not aggregate signatures"%string
    | Some sig => inr (map Message blsMessages, sig)
    end.
Proof.
  intros Hsize. rewrite aggregateBLS_unfold.
  replace (map (fun m => toBlsSignature (Signature m)) blsMessages)
    with (map Signature blsMessages); [reflexivity|].
  apply map_ext_in. intros msg Hmsg.
  rewrite Forall_forall in Hsize.
  symmetry. apply toBlsSignature_exact, Hsize, Hmsg.
Qed.

(** X13: zero bytes after a signature do not count: with any number of
    them after the signature of each message, [aggregateBLS] returns the
    same. *)
Theorem aggregateBLS_trailing_zeros (k : nat)
    (blsMessages : list SignedMessage) :
  aggregateBLS (map (withTrailingZeros k) blsMessages)
  = aggregateBLS blsMessages.
Proof.
  rewrite !aggregateBLS_unfold, !map_map.
  cbn [withTrailingZeros Message Signature].
  replace (map (fun x => toBlsSignature (Signature x ++ repeat x00 k))
               blsMessages)
    with (map (fun m => toBlsSignature (Signature m)) blsMessages).
  - reflexivity.
  - apply map_ext. intros msg. now rewrite toBlsSignature_zeros.
Qed.

End PartitionMore.

(** ** What [Generate] returns *)

(** One step of the run, the loops being replaced by the two ways they
    end. *)
Ltac gen_loops :=
  lazymatch goal with
  | |- context [bind (removePermanentFailures ?a ?b 0
                        (elems (PermanentFailures ?b))) ?f ?p] =>
      let Hlen := fresh "Hpermanent" in
      let Hrun := fresh "Hrun" in
      rewrite (bind_unfold
                 (removePermanentFailures a b 0 (elems (PermanentFailures b)))
                 f p);
      destruct (removePermanentFailures_cases a b p)
        as [[Hlen Hrun]|[Hlen Hrun]];
      rewrite Hrun; clear Hrun; cbv beta iota
  | |- context [bind (logTemporaryFailures ?b 0
                        (elems (TemporaryFailures ?b))) ?f ?p] =>
      let Hlen := fresh "Htemporary" in
      let Hrun := fresh "Hrun" in
      rewrite (bind_unfold
                 (logTemporaryFailures b 0 (elems (TemporaryFailures b)))
                 f p);
      destruct (logTemporaryFailures_cases b p)
        as [[Hlen Hrun]|[Hlen Hrun]];
      rewrite Hrun; clear Hrun; cbv beta iota
  end.

Ltac gen_cases :=
  unfold Generate; repeat (first [ gen_loops | gen_step ]);
  cbn [prepend pool_of trace_of outcome_of fst snd fail ret app].

Section Outcomes.
Context {X : Externals} {B : BlsLib} {Mt : Methods}.
Variables (w : DefaultWorker) (baseTipSet : TipSet) (tickets : list Ticket)
          (electionProof : VRFPi) (nullBlockCount : Z) (pool : Pool).

Local Abbreviation run :=
  (Generate w baseTipSet tickets electionProof nullBlockCount pool).

(** X1: when every collaborator answers without error, the aggregation
    succeeds and the processor gives an error for each failure, [Generate]
    returns the block, signed; the pool is the one the loop over the
    permanent failures leaves, and the calls are, in order, those up to the
    application, those up to the signature and those of the loop. *)
Theorem Generate_succeeds stateTree powerTable weight baseHeight ancestors
    res stateTree' vms' root unwrapped aggregate txMeta rcptsCid workerAddr
    sig :
  getStateTree w baseTipSet = inr stateTree ->
  getPowerTable w (Key baseTipSet) = inr powerTable ->
  HasPower powerTable (minerAddr w) = true ->
  getWeight w baseTipSet = inr weight ->
  Height baseTipSet = inr baseHeight ->
  let blockHeight := newBlockHeight baseHeight nullBlockCount in
  getAncestors w baseTipSet blockHeight = inr ancestors ->
  let drained := MessageQueue_Drain (messageSource_Pending w pool) in
  let messages :=
    snd (divideMessages drained) ++ fst (divideMessages drained) in
  processor_ApplyMessagesAndPayRewards w stateTree
    (NewStorageMap (blockstore w)) messages (minerOwnerAddr w) blockHeight
    ancestors = inr (res, stateTree', vms') ->
  StateTree_Flush stateTree' = inr root ->
  StorageMap_Flush vms' = inr tt ->
  let mined := divideMessages (elems (SuccessfulMessages res)) in
  aggregateBLS (snd mined) = inr (unwrapped, aggregate) ->
  messageStore_StoreMessages w (fst mined) unwrapped = inr txMeta ->
  messageStore_StoreReceipts w (collectReceipts (Results res))
  = inr rcptsCid ->
  let next :=
    {| Miner := minerAddr w;
       BlockHeight := blockHeight;
       Messages := txMeta;
       MessageReceipts := rcptsCid;
       Parents := Key baseTipSet;
       ParentWeight := weight;
       ElectionProof := electionProof;
       StateRoot := root;
       Tickets := tickets;
       Timestamp := to_uint64 (clock_Now_Unix w);
       BLSAggregateSig := aggregate;
       BlockSig := [] |} in
  api_MinerGetWorkerAddress w (minerAddr w) (Key baseTipSet)
  = inr workerAddr ->
  workerSigner_SignBytes w (Block_SignatureData next) workerAddr = inr sig ->
  (length (elems (PermanentFailures res))
   <= length (elems (PermanentErrors res)))%nat ->
  (length (elems (TemporaryFailures res))
   <= length (elems (TemporaryErrors res)))%nat ->
  run
  = (Ok (set_BlockSig next sig),
     reconcile w (elems (PermanentFailures res)) pool,
     eventsToApply messages blockHeight
     ++ eventsToSign (fst mined) unwrapped (collectReceipts (Results res))
          (Block_SignatureData next)
     ++ reconcileEvents (elems (PermanentFailures res))).
Proof.
  intros Htree Htable Hpower Hweight Hheight blockHeight Hancestors
         drained messages Hres Hroot Hvms mined Haggregate Hmessages
         Hreceipts next Hworker Hsig Hpermanent Htemporary.
  subst next mined messages drained blockHeight.
  rewrite divideMessages_filter in *. cbn [fst snd] in *.
  unfold eventsToApply, eventsToSign. gen_cases.
  all: try lia.
  rewrite !app_nil_r. reflexivity.
Qed.

(** X2: a block that is returned has the address of the miner, the key of
    the parent tip set, the election proof and the tickets that were given,
    the weight that [getWeight] returned, and for timestamp the time of the
    clock converted to [uint64] (the time itself when it is not
    negative). *)
Theorem Generate_block_fields (blk : Block) :
  outcome_of run = Ok blk ->
  Miner blk = minerAddr w
  /\ Parents blk = Key baseTipSet
  /\ ElectionProof blk = electionProof
  /\ Tickets blk = tickets
  /\ getWeight w baseTipSet = inr (ParentWeight blk)
  /\ Timestamp blk = clock_Now_Unix w mod two64
  /\ (0 <= clock_Now_Unix w < two64 -> Timestamp blk = clock_Now_Unix w).
Proof.
  gen_cases.
  all: intros Hblk; try discriminate Hblk.
  inversion Hblk; subst; clear Hblk.
  cbn [Miner Parents ElectionProof Tickets ParentWeight Timestamp
       set_BlockSig].
  repeat (split; [solve [reflexivity | assumption]|]).
  intros Hclock. unfold to_uint64. apply Z.mod_small. exact Hclock.
Qed.

(** X3: the signature of a block that is returned is what the signer
    returned for the signable bytes of that block without its signature,
    with the address that the lookup of the worker of the miner returned
    at the parent tip set. *)
Theorem Generate_block_signed (blk : Block) :
  outcome_of run = Ok blk ->
  exists workerAddr,
    api_MinerGetWorkerAddress w (minerAddr w) (Key baseTipSet)
    = inr workerAddr
    /\ workerSigner_SignBytes w (Block_SignatureData (set_BlockSig blk []))
         workerAddr = inr (BlockSig blk)
    /\ In (EvSignBytes (Block_SignatureData (set_BlockSig blk [])))
          (trace_of run).
Proof.
  gen_cases.
  all: intros Hblk; try discriminate Hblk.
  inversion Hblk; subst; clear Hblk.
  cbn [Miner BlockHeight Messages MessageReceipts Parents ParentWeight
       ElectionProof StateRoot Tickets Timestamp BLSAggregateSig BlockSig
       set_BlockSig].
  eexists. split; [reflexivity|]. split; [eassumption | in_here].
Qed.

(** X4: for a block that is returned, the message store was given the
    successful messages of the response of the processor to the call of
    this run, divided anew: those that are not BLS, signed, and the bodies
    of the BLS ones, both in the order of the response. The block refers to
    the answer of the store on them, and its aggregate signature is what
    the primitive made of the signatures of the successful BLS messages. *)
Theorem Generate_messages_stored (blk : Block) :
  outcome_of run = Ok blk ->
  exists res stateTree' vms',
    Applied w baseTipSet nullBlockCount pool res stateTree' vms'
    /\ let successful := elems (SuccessfulMessages res) in
       In (EvStoreMessages (filter notBLS successful)
             (map Message (filter isBLS successful)))
          (trace_of run)
       /\ messageStore_StoreMessages w (filter notBLS successful)
            (map Message (filter isBLS successful))
          = inr (Messages blk)
       /\ Aggregate (map (fun m => toBlsSignature (Signature m))
                         (filter isBLS successful))
          = Some (BLSAggregateSig blk).
Proof.
  gen_cases.
  all: intros Hblk; try discriminate Hblk.
  inversion Hblk; subst; clear Hblk.
  cbn [Messages BLSAggregateSig set_BlockSig].
  match goal with
  | H : aggregateBLS _ = inr _ |- _ =>
      rewrite aggregateBLS_unfold in H;
      destruct (Aggregate _) eqn:Hagg in H; [|discriminate H];
      inversion H; subst; clear H
  end.
  do 3 eexists. split; [prove_applied|].
  cbv zeta. split; [in_here|]. split; eassumption.
Qed.

(** X5: [Remove] is called for nothing but the permanent failures of the
    response of the processor to the call of this run. When it is called,
    the calls of the loop are the last of the run and are those for the
    permanent failures that have an error in the response, one [Cid] each
    and one [Remove] for each content identifier that could be computed;
    the pool is the initial pool after these removals. A message that is
    not among them (a temporary failure, a successful message) is not
    removed. *)
Theorem Generate_removes_only_permanent_failures (mc : Cid) :
  In (EvRemove mc) (trace_of run) ->
  exists res stateTree' vms',
    Applied w baseTipSet nullBlockCount pool res stateTree' vms'
    /\ let removed :=
         firstn (length (elems (PermanentErrors res)))
                (elems (PermanentFailures res)) in
       (exists msg, In msg removed /\ SignedMessage_Cid msg = inr mc)
       /\ (exists before,
             trace_of run = before ++ reconcileEvents removed
             /\ Forall (fun ev => is_Remove ev = false) before)
       /\ pool_of run = reconcile w removed pool.
Proof.
  gen_cases.
  all: cbn [In]; intros Hin.
  all: repeat match type of Hin with
              | _ \/ _ => destruct Hin as [Hin|Hin]; [discriminate Hin|]
              | False => contradiction
              end.
  all: rewrite ?app_nil_r in *.
  all: do 3 eexists; split; [prove_applied|]; cbv zeta.
  all: rewrite ?firstn_all2 by assumption.
  all: split; [apply reconcileEvents_Remove in Hin; exact Hin|].
  all: split; [|reflexivity].
  all: match goal with |- exists before, ?tr = _ /\ _ =>
         exists (firstn 15 tr) end.
  all: cbn [firstn app]; split; [reflexivity | repeat constructor].
Qed.

(** X6: when a block is returned, the pool is the initial pool from which
    the permanent failures of the response of the processor to the call of
    this run, those whose content identifier can be computed, have been
    removed, in the order of the response; the response has an error for
    each of its failures. *)
Theorem Generate_pool_after_success (blk : Block) :
  outcome_of run = Ok blk ->
  exists res stateTree' vms',
    Applied w baseTipSet nullBlockCount pool res stateTree' vms'
    /\ pool_of run = reconcile w (elems (PermanentFailures res)) pool
    /\ (length (elems (PermanentFailures res))
        <= length (elems (PermanentErrors res)))%nat
    /\ (length (elems (TemporaryFailures res))
        <= length (elems (TemporaryErrors res)))%nat.
Proof.
  gen_cases.
  all: intros Hblk; try discriminate Hblk.
  do 3 eexists. split; [prove_applied|].
  split; [reflexivity|]. split; assumption.
Qed.

(** X7: when the response of the processor has fewer errors than failures,
    every collaborator having answered without error, [Generate] panics
    with an index out of range and returns no block, although the block
    was signed. With [n] errors for more permanent failures, the first [n]
    of them have been removed from the pool by then; with enough of these
    and fewer errors than temporary failures, all the permanent failures
    have. *)
Theorem Generate_short_errors_panic stateTree powerTable weight baseHeight
    ancestors res stateTree' vms' root unwrapped aggregate txMeta rcptsCid
    workerAddr sig :
  getStateTree w baseTipSet = inr stateTree ->
  getPowerTable w (Key baseTipSet) = inr powerTable ->
  HasPower powerTable (minerAddr w) = true ->
  getWeight w baseTipSet = inr weight ->
  Height baseTipSet = inr baseHeight ->
  let blockHeight := newBlockHeight baseHeight nullBlockCount in
  getAncestors w baseTipSet blockHeight = inr ancestors ->
  let drained := MessageQueue_Drain (messageSource_Pending w pool) in
  let messages :=
    snd (divideMessages drained) ++ fst (divideMessages drained) in
  processor_ApplyMessagesAndPayRewards w stateTree
    (NewStorageMap (blockstore w)) messages (minerOwnerAddr w) blockHeight
    ancestors = inr (res, stateTree', vms') ->
  StateTree_Flush stateTree' = inr root ->
  StorageMap_Flush vms' = inr tt ->
  let mined := divideMessages (elems (SuccessfulMessages res)) in
  aggregateBLS (snd mined) = inr (unwrapped, aggregate) ->
  messageStore_StoreMessages w (fst mined) unwrapped = inr txMeta ->
  messageStore_StoreReceipts w (collectReceipts (Results res))
  = inr rcptsCid ->
  let next :=
    {| Miner := minerAddr w;
       BlockHeight := blockHeight;
       Messages := txMeta;
       MessageReceipts := rcptsCid;
       Parents := Key baseTipSet;
       ParentWeight := weight;
       ElectionProof := electionProof;
       StateRoot := root;
       Tickets := tickets;
       Timestamp := to_uint64 (clock_Now_Unix w);
       BLSAggregateSig := aggregate;
       BlockSig := [] |} in
  api_MinerGetWorkerAddress w (minerAddr w) (Key baseTipSet)
  = inr workerAddr ->
  workerSigner_SignBytes w (Block_SignatureData next) workerAddr = inr sig ->
  let failures := elems (PermanentFailures res) in
  let n := length (elems (PermanentErrors res)) in
  let called :=
    eventsToApply messages blockHeight
    ++ eventsToSign (fst mined) unwrapped (collectReceipts (Results res))
         (Block_SignatureData next) in
  ((n < length failures)%nat ->
   run
   = (Panic "index out of range"%string,
      reconcile w (firstn n failures) pool,
      called ++ reconcileEvents (firstn n failures)))
  /\ ((length failures <= n)%nat ->
      (length (elems (TemporaryErrors res))
       < length (elems (TemporaryFailures res)))%nat ->
      run
      = (Panic "index out of range"%string,
         reconcile w failures pool,
         called ++ reconcileEvents failures)).
Proof.
  intros Htree Htable Hpower Hweight Hheight blockHeight Hancestors
         drained messages Hres Hroot Hvms mined Haggregate Hmessages
         Hreceipts next Hworker Hsig failures n called.
  subst called n failures next mined messages drained blockHeight.
  rewrite divideMessages_filter in *. cbn [fst snd] in *.
  unfold eventsToApply, eventsToSign. gen_cases.
  all: split; [intros Hshort | intros Hlong Hshort]; try lia.
  all: cbn [app]; rewrite ?app_nil_r; reflexivity.
Qed.

(** X8: an error that [Generate] returns is the error of the miner without
    power, or the error of a collaborator, or of the aggregation, wrapped
    with the message of the stage that failed. *)
Theorem Generate_errors_wrapped (err : Error) :
  outcome_of run = Failed err ->
  err = noPowerError w
  \/ exists cause stage, In stage stageMessages /\ err = Wrap cause stage.
Proof.
  gen_cases.
  all: intros Hfailed; try discriminate Hfailed.
  all: inversion Hfailed; subst; clear Hfailed.
  all: first
         [ left; reflexivity
         | right; do 2 eexists; split; [|reflexivity];
           unfold stageMessages; in_here ].
Qed.

(** X9: the message store is written before the worker of the miner is
    looked up and the block signed. When [Generate] returns an error after
    the lookup was called, the messages and the receipts have been stored,
    and the pool is as it was. *)
Theorem Generate_late_failure_keeps_writes (err : Error) :
  outcome_of run = Failed err ->
  In EvMinerGetWorkerAddress (trace_of run) ->
  pool_of run = pool
  /\ exists secp bls receipts txMeta rcptsCid,
       In (EvStoreMessages secp bls) (trace_of run)
       /\ messageStore_StoreMessages w secp bls = inr txMeta
       /\ In (EvStoreReceipts receipts) (trace_of run)
       /\ messageStore_StoreReceipts w receipts = inr rcptsCid.
Proof.
  gen_cases.
  all: intros Hfailed; try discriminate Hfailed.
  all: cbn [In]; intros Hin.
  all: repeat match type of Hin with
              | _ \/ _ => destruct Hin as [Hin|Hin]; [discriminate Hin|]
              | False => contradiction
              end.
  all: split; [reflexivity|].
  all: do 5 eexists.
  all: split; [in_here|]; split; [eassumption|].
  all: split; [in_here | eassumption].
Qed.

(** X14: the processor is given every message that the queue drained,
    each once: the sequence it is called on, the one whose answer decides
    the run, is a permutation of the drained sequence. *)
Theorem Generate_applies_every_drained_message
    (messages : list SignedMessage) (height : Z) :
  In (EvApplyMessages messages height) (trace_of run) ->
  let drained := MessageQueue_Drain (messageSource_Pending w pool) in
  Permutation messages drained
  /\ length messages = length drained
  /\ exists stateTree weight baseHeight ancestors,
       Prepared w baseTipSet nullBlockCount stateTree weight baseHeight
         ancestors
       /\ height = newBlockHeight baseHeight nullBlockCount
       /\ DecidedByProcessor w (outcome_of run) stateTree messages height
            ancestors.
Proof.
  intros Hin drained.
  destruct (Generate_processor_call w baseTipSet tickets electionProof
              nullBlockCount pool messages height Hin)
    as (stateTree & weight & baseHeight & ancestors & Hprep & Hheight
        & Hmessages & Hdecided).
  fold drained in Hmessages.
  assert (Hperm : Permutation messages drained).
  { rewrite Hmessages.
    eapply Permutation_trans; [apply Permutation_app_comm|].
    apply Interleave_perm, (Interleave_filter isBLS). }
  split; [exact Hperm|].
  split; [apply Permutation_length; exact Hperm|].
  exists stateTree, weight, baseHeight, ancestors.
  split; [assumption|]. split; assumption.
Qed.

End Outcomes.

(** ** These properties on the small instances *)

Section InstancesMore.
#[local] Existing Instance Toy.externals.
#[local] Existing Instance Toy.bls.
#[local] Existing Instance Toy.methods.

Example divideMessages_stable_toy :
  divideMessages Toy.applied_order = divideMessages (map Toy.signed Toy.pool).
Proof. reflexivity. Qed.

Lemma Generate_succeeds_witness :
  Toy.run true true 10 0
  = (Ok (set_BlockSig
           {| Miner := 1;
              BlockHeight := newBlockHeight 10 0;
              Messages := (1%nat, 2%nat);
              MessageReceipts := 3%nat;
              Parents := 10;
              ParentWeight := 100;
              ElectionProof := tt;
              StateRoot := 7%nat;
              Tickets := [];
              Timestamp := to_uint64 1572000000;
              BLSAggregateSig := repeat x01 2 ++ repeat x00 94;
              BlockSig := [] |}
           [x00]),
     reconcile (Toy.worker true true) [Toy.signed (1, 1%nat)] Toy.pool,
     eventsToApply Toy.applied_order (newBlockHeight 10 0)
     ++ eventsToSign [Toy.signed (1, 2%nat)] [(3, 0%nat); (3, 4%nat)]
          (mk_slice [0; 4; 2]%nat) [x00]
     ++ reconcileEvents [Toy.signed (1, 1%nat)]).
Proof.
  refine (Generate_succeeds (Toy.worker true true) 10 [] tt 0 Toy.pool
            true true 100 10 [10] (Toy.response Toy.applied_order) true true
            7%nat [(3, 0%nat); (3, 4%nat)] (repeat x01 2 ++ repeat x00 94)
            (1%nat, 2%nat) 3%nat 1 [x00]
            eq_refl eq_refl eq_refl eq_refl eq_refl eq_refl eq_refl eq_refl
            eq_refl eq_refl eq_refl eq_refl eq_refl eq_refl _ _);
    cbn; lia.
Defined.

Lemma Generate_block_fields_witness :
  exists blk,
    outcome_of (Toy.run true true 10 0) = Ok blk
    /\ Miner blk = 1
    /\ Parents blk = 10
    /\ ElectionProof blk = tt
    /\ Tickets blk = []
    /\ getWeight (Toy.worker true true) 10 = inr (ParentWeight blk)
    /\ Timestamp blk = 1572000000 mod two64
    /\ (0 <= 1572000000 < two64 -> Timestamp blk = 1572000000).
Proof.
  eexists. split; [vm_compute; reflexivity|].
  exact (Generate_block_fields (Toy.worker true true) 10 [] tt 0 Toy.pool
           _ eq_refl).
Defined.

Lemma Generate_block_signed_witness :
  exists blk,
    outcome_of (Toy.run true true 10 0) = Ok blk
    /\ exists workerAddr,
         api_MinerGetWorkerAddress (Toy.worker true true) 1 10
         = inr workerAddr
         /\ workerSigner_SignBytes (Toy.worker true true)
              (Block_SignatureData (set_BlockSig blk [])) workerAddr
            = inr (BlockSig blk)
         /\ In (EvSignBytes (Block_SignatureData (set_BlockSig blk [])))
               (trace_of (Toy.run true true 10 0)).
Proof.
  eexists. split; [vm_compute; reflexivity|].
  exact (Generate_block_signed (Toy.worker true true) 10 [] tt 0 Toy.pool
           _ eq_refl).
Defined.

Lemma Generate_messages_stored_witness :
  exists blk,
    outcome_of (Toy.run true true 10 0) = Ok blk
    /\ Messages blk = (1%nat, 2%nat)
    /\ exists res stateTree' vms',
         Applied (Toy.worker true true) 10 0 Toy.pool res stateTree' vms'
         /\ let successful := elems (SuccessfulMessages res) in
            In (EvStoreMessages (filter notBLS successful)
                  (map Message (filter isBLS successful)))
               (trace_of (Toy.run true true 10 0))
            /\ messageStore_StoreMessages (Toy.worker true true)
                 (filter notBLS successful)
                 (map Message (filter isBLS successful))
               = inr (Messages blk)
            /\ Aggregate (map (fun m => toBlsSignature (Signature m))
                              (filter isBLS successful))
               = Some (BLSAggregateSig blk).
Proof.
  eexists. split; [vm_compute; reflexivity|]. split; [reflexivity|].
  exact (Generate_messages_stored (Toy.worker true true) 10 [] tt 0 Toy.pool
           _ eq_refl).
Defined.

Lemma Generate_removes_only_permanent_failures_witness :
  In (EvRemove 1%nat) (trace_of (Toy.run true true 10 0))
  /\ exists res stateTree' vms',
       Applied (Toy.worker true true) 10 0 Toy.pool res stateTree' vms'
       /\ let removed :=
            firstn (length (elems (PermanentErrors res)))
                   (elems (PermanentFailures res)) in
          (exists msg, In msg removed /\ SignedMessage_Cid msg = inr 1%nat)
          /\ (exists before,
                trace_of (Toy.run true true 10 0)
                = before ++ reconcileEvents removed
                /\ Forall (fun ev => is_Remove ev = false) before)
          /\ pool_of (Toy.run true true 10 0)
             = reconcile (Toy.worker true true) removed Toy.pool.
Proof.
  assert (Hin : In (EvRemove 1%nat) (trace_of (Toy.run true true 10 0))).
  { vm_compute. do 16 right. left. reflexivity. }
  split; [exact Hin|].
  exact (Generate_removes_only_permanent_failures (Toy.worker true true) 10
           [] tt 0 Toy.pool 1%nat Hin).
Defined.

Lemma Generate_pool_after_success_witness :
  exists blk,
    outcome_of (Toy.run true true 10 0) = Ok blk
    /\ pool_of (Toy.run true true 10 0)
       = [(1, 2%nat); (3, 0%nat); (3, 4%nat)]
    /\ exists res stateTree' vms',
         Applied (Toy.worker true true) 10 0 Toy.pool res stateTree' vms'
         /\ pool_of (Toy.run true true 10 0)
            = reconcile (Toy.worker true true)
                (elems (PermanentFailures res)) Toy.pool
         /\ (length (elems (PermanentFailures res))
             <= length (elems (PermanentErrors res)))%nat
         /\ (length (elems (TemporaryFailures res))
             <= length (elems (TemporaryErrors res)))%nat.
Proof.
  eexists. split; [vm_compute; reflexivity|]. split; [reflexivity|].
  exact (Generate_pool_after_success (Toy.worker true true) 10 [] tt 0
           Toy.pool _ eq_refl).
Defined.

(** One error for two permanent failures: the first is removed, then the
    panic. An error for each, none for the temporary failure: both are
    removed, then the panic. *)
Lemma Generate_short_errors_panic_witness :
  ToyLoops.run ["bad nonce"%string]
  = (Panic "index out of range"%string, [(3, 5%nat); (1, 2%nat)],
     eventsToApply [Toy.signed (3, 5%nat); Toy.signed (1, 1%nat);
                    Toy.signed (1, 2%nat)] 11
     ++ eventsToSign [] [(3, 0%nat)] (mk_slice []) [x00]
     ++ [EvCid (Toy.signed (1, 1%nat)); EvRemove 1%nat])
  /\ Generate ToyLoops.unlogged 10 [] tt 0 ToyLoops.pool
     = (Panic "index out of range"%string, [(1, 2%nat)],
        eventsToApply [Toy.signed (3, 5%nat); Toy.signed (1, 1%nat);
                       Toy.signed (1, 2%nat)] 11
        ++ eventsToSign [] [(3, 0%nat)] (mk_slice []) [x00]
        ++ [EvCid (Toy.signed (1, 1%nat)); EvRemove 1%nat;
            EvCid (Toy.signed (3, 5%nat)); EvRemove 5%nat]).
Proof.
  split.
  - refine (eq_trans
              (proj1 (Generate_short_errors_panic
                        (ToyLoops.worker ["bad nonce"%string]) 10 [] tt 0
                        ToyLoops.pool true true 100 10 [10]
                        (ToyLoops.response ["bad nonce"%string]) true true
                        7%nat [(3, 0%nat)] (repeat x01 1 ++ repeat x00 95)
                        (0%nat, 1%nat) 0%nat 1 [x00]
                        eq_refl eq_refl eq_refl eq_refl eq_refl eq_refl
                        eq_refl eq_refl eq_refl eq_refl eq_refl eq_refl
                        eq_refl eq_refl) _) _);
      [cbn; lia | reflexivity].
  - refine (eq_trans
              (proj2 (Generate_short_errors_panic
                        ToyLoops.unlogged 10 [] tt 0
                        ToyLoops.pool true true 100 10 [10]
                        ToyLoops.unlogged_response true true
                        7%nat [(3, 0%nat)] (repeat x01 1 ++ repeat x00 95)
                        (0%nat, 1%nat) 0%nat 1 [x00]
                        eq_refl eq_refl eq_refl eq_refl eq_refl eq_refl
                        eq_refl eq_refl eq_refl eq_refl eq_refl eq_refl
                        eq_refl eq_refl) _ _) _);
      [cbn; lia | cbn; lia | reflexivity].
Defined.

Lemma Generate_errors_wrapped_witness :
  outcome_of (Toy.run true false 10 0)
  = Failed "generate flush state tree: store closed"%string
  /\ ("generate flush state tree: store closed"%string
      = noPowerError (Toy.worker true false)
      \/ exists cause stage,
           In stage stageMessages
           /\ "generate flush state tree: store closed"%string
              = Wrap cause stage).
Proof.
  split; [reflexivity|].
  exact (Generate_errors_wrapped (Toy.worker true false) 10 [] tt 0 Toy.pool
           _ eq_refl).
Defined.

Lemma Generate_late_failure_keeps_writes_witness :
  outcome_of (Generate ToyLoops.keyless 10 [] tt 0 Toy.pool)
  = Failed "failed to sign block: no key"%string
  /\ In EvMinerGetWorkerAddress
        (trace_of (Generate ToyLoops.keyless 10 [] tt 0 Toy.pool))
  /\ pool_of (Generate ToyLoops.keyless 10 [] tt 0 Toy.pool) = Toy.pool
  /\ exists secp bls receipts txMeta rcptsCid,
       In (EvStoreMessages secp bls)
          (trace_of (Generate ToyLoops.keyless 10 [] tt 0 Toy.pool))
       /\ messageStore_StoreMessages ToyLoops.keyless secp bls = inr txMeta
       /\ In (EvStoreReceipts receipts)
             (trace_of (Generate ToyLoops.keyless 10 [] tt 0 Toy.pool))
       /\ messageStore_StoreReceipts ToyLoops.keyless receipts
          = inr rcptsCid.
Proof.
  assert (Hin : In EvMinerGetWorkerAddress
                   (trace_of (Generate ToyLoops.keyless 10 [] tt 0
                                Toy.pool))).
  { vm_compute. do 13 right. left. reflexivity. }
  split; [reflexivity|]. split; [exact Hin|].
  exact (Generate_late_failure_keeps_writes ToyLoops.keyless 10 [] tt 0
           Toy.pool _ eq_refl Hin).
Defined.

Lemma aggregateBLS_exact_size_witness :
  Forall (fun msg => length (Signature msg) = SignatureBytes)
         [{| Message := (3, 0%nat); Signature := repeat x01 96 |}]
  /\ aggregateBLS [{| Message := (3, 0%nat); Signature := repeat x01 96 |}]
     = match Aggregate [repeat x01 96] with
       | None => inl "could not aggregate signatures"%string
       | Some sig => inr ([(3, 0%nat)], sig)
       end.
Proof.
  assert (Hsize : Forall (fun msg => length (Signature msg) = SignatureBytes)
                    [{| Message := (3, 0%nat);
                        Signature := repeat x01 96 |}])
    by (constructor; [reflexivity | constructor]).
  split; [exact Hsize|].
  exact (aggregateBLS_exact_size _ Hsize).
Defined.

Lemma Generate_applies_every_drained_message_witness :
  In (EvApplyMessages Toy.applied_order 11)
     (trace_of (Toy.run true true 10 0))
  /\ Permutation Toy.applied_order (map Toy.signed Toy.pool)
  /\ length Toy.applied_order = length (map Toy.signed Toy.pool)
  /\ exists stateTree weight baseHeight ancestors,
       Prepared (Toy.worker true true) 10 0 stateTree weight baseHeight
         ancestors
       /\ 11 = newBlockHeight baseHeight 0
       /\ DecidedByProcessor (Toy.worker true true)
            (outcome_of (Toy.run true true 10 0)) stateTree
            Toy.applied_order 11 ancestors.
Proof.
  assert (Hin : In (EvApplyMessages Toy.applied_order 11)
                   (trace_of (Toy.run true true 10 0))).
  { vm_compute. do 7 right. left. reflexivity. }
  split; [exact Hin|].
  exact (Generate_applies_every_drained_message (Toy.worker true true) 10 []
           tt 0 Toy.pool Toy.applied_order 11 Hin).
Defined.

Lemma removePermanentFailures_bounds_witness :
  removePermanentFailures (ToyLoops.worker ["a"; "b"]%string)
    (ToyLoops.response ["a"; "b"]%string) 0 ToyLoops.failures ToyLoops.pool
  = (Ok tt, [(1, 2%nat)],
     [EvCid (Toy.signed (1, 1%nat)); EvRemove 1%nat;
      EvCid (Toy.signed (3, 5%nat)); EvRemove 5%nat])
  /\ removePermanentFailures (ToyLoops.worker ["a"]%string)
       (ToyLoops.response ["a"]%string) 0 ToyLoops.failures ToyLoops.pool
     = (Panic "index out of range"%string, [(3, 5%nat); (1, 2%nat)],
        [EvCid (Toy.signed (1, 1%nat)); EvRemove 1%nat]).
Proof.
  split.
  - refine (proj1 (removePermanentFailures_bounds
                     (ToyLoops.worker ["a"; "b"]%string)
                     (ToyLoops.response ["a"; "b"]%string) ToyLoops.pool) _).
    cbn. lia.
  - refine (proj2 (removePermanentFailures_bounds
                     (ToyLoops.worker ["a"]%string)
                     (ToyLoops.response ["a"]%string) ToyLoops.pool) _).
    cbn. lia.
Defined.

End InstancesMore.
